(** * Miss Belle: appointment slots, cash-register closings and signup roles

    A shallow embedding of the rule-bearing parts of the clinic application:
    the SQL schema with its constraints and row-level-security policies
    (migrations), and the client functions that read and write the
    [appointments], [cash_register_closings], [cash_register_transactions]
    and [profiles] tables (Agenda, CashRegister, AuthContext).

    Conventions of the embedding.
    - uuids, dates and times are strings, compared as the datastore compares
      canonical values;
    - a [numeric(10, 2)] amount is an integer number of cents, and the sums
      the client computes over amounts are taken exactly;
    - a table is the list of its rows in creation order ([created_at]);
    - the datastore request of a client runs under a caller: [Some uid] for a
      session (role [authenticated], [auth.uid() = uid]) and [None] for a
      request carrying only the anon key (role [anon]);
    - values the platform produces ([gen_random_uuid()], the clock, the answer
      of the authentication service, the user's answer to [confirm]) are
      inputs of the function that consumes them. *)

From Stdlib Require Import ZArith List String Bool Lia.
From Stdlib Require Import Orders Sorted Permutation Mergesort.
Import ListNotations.
Open Scope string_scope.
Open Scope Z_scope.

(** ** Data model *)

Inductive Role := super_admin | user.

Inductive Status := scheduled | confirmed | completed | cancelled.

Definition Role_eqb (a b : Role) : bool :=
  match a, b with
  | super_admin, super_admin | user, user => true
  | _, _ => false
  end.

Definition Status_eqb (a b : Status) : bool :=
  match a, b with
  | scheduled, scheduled | confirmed, confirmed
  | completed, completed | cancelled, cancelled => true
  | _, _ => false
  end.

Record Profile := {
  profile_id : string;
  email : string;
  full_name : string;
  role : Role;
  is_active : bool }.

Record Procedure := {
  procedure_row_id : string;
  procedure_name : string;
  duration_minutes : Z;
  procedure_is_active : bool }.

Record Patient := {
  patient_row_id : string;
  patient_full_name : string;
  patient_professional_id : string }.

Record Appointment := {
  appointment_row_id : string;
  patient_id : string;
  procedure_id : string;
  professional_id : string;
  appointment_date : string;
  appointment_time : string;
  status : Status;
  cancellation_reason : option string;
  created_by : option string }.

Record CashRegisterClosing := {
  closing_row_id : string;
  closing_professional_id : string;
  closing_date : string;
  total_amount : Z;
  closing_notes : option string;
  is_finalized : bool;
  finalized_at : option string }.

Record Transaction := {
  transaction_id : string;
  closing_id : string;
  appointment_id : option string;
  amount : Z;
  payment_method : string;
  transaction_notes : option string }.

(** The datastore: one list of rows per table. *)
Record DB := {
  profiles : list Profile;
  procedures : list Procedure;
  patients : list Patient;
  appointments : list Appointment;
  cash_register_closings : list CashRegisterClosing;
  cash_register_transactions : list Transaction }.

Definition empty_db : DB :=
  {| profiles := []; procedures := []; patients := []; appointments := [];
     cash_register_closings := []; cash_register_transactions := [] |}.

Definition set_profiles (db : DB) (l : list Profile) : DB :=
  {| profiles := l; procedures := procedures db; patients := patients db;
     appointments := appointments db;
     cash_register_closings := cash_register_closings db;
     cash_register_transactions := cash_register_transactions db |}.

Definition set_appointments (db : DB) (l : list Appointment) : DB :=
  {| profiles := profiles db; procedures := procedures db;
     patients := patients db; appointments := l;
     cash_register_closings := cash_register_closings db;
     cash_register_transactions := cash_register_transactions db |}.

Definition set_closings (db : DB) (l : list CashRegisterClosing) : DB :=
  {| profiles := profiles db; procedures := procedures db;
     patients := patients db; appointments := appointments db;
     cash_register_closings := l;
     cash_register_transactions := cash_register_transactions db |}.

Definition set_transactions (db : DB) (l : list Transaction) : DB :=
  {| profiles := profiles db; procedures := procedures db;
     patients := patients db; appointments := appointments db;
     cash_register_closings := cash_register_closings db;
     cash_register_transactions := l |}.

(** ** Errors *)

Inductive PgError :=
  | rls_violation (table : string)
  | unique_violation (constraint : string)
  | check_violation (constraint : string)
  | foreign_key_violation (constraint : string)
  | not_null_violation (column : string)
  | numeric_field_overflow.

(** What a client function reports to the user: the error of the
    authentication service, 'Falha ao criar usuario', the conflict message
    of the appointment form, the alert that a closing exists for today, or
    the message of a storage error. *)
Inductive Error :=
  | AuthError
  | NoUserReturned
  | SlotConflict
  | ClosingAlreadyExists
  | Storage (e : PgError).

Inductive Outcome :=
  | Done
  | Failed (e : Error).

(** ** Row-level security *)

Module Rls.

Inductive Cmd := SELECT | INSERT | UPDATE | DELETE | ALL.

Inductive PgRole := anon | authenticated.

Definition Cmd_eqb (a b : Cmd) : bool :=
  match a, b with
  | SELECT, SELECT | INSERT, INSERT | UPDATE, UPDATE
  | DELETE, DELETE | ALL, ALL => true
  | _, _ => false
  end.

Definition PgRole_eqb (a b : PgRole) : bool :=
  match a, b with
  | anon, anon | authenticated, authenticated => true
  | _, _ => false
  end.

(** [auth.uid()] of the request; [None] is SQL NULL. *)
Definition Caller := option string.

Definition pg_role (c : Caller) : PgRole :=
  match c with Some _ => authenticated | None => anon end.

(** [x = auth.uid()]: never true when [auth.uid()] is NULL. *)
Definition is_uid (c : Caller) (x : string) : bool :=
  match c with Some u => String.eqb x u | None => false end.

Definition Pred (R : Type) : Type := DB -> Caller -> R -> bool.

(** CREATE POLICY name ON table FOR cmd TO roles USING (..) WITH CHECK (..) *)
Record Policy (R : Type) := {
  pol_name : string;
  pol_cmd : Cmd;
  pol_to : list PgRole;
  pol_using : option (Pred R);
  pol_with_check : option (Pred R) }.

Arguments pol_name {R}.
Arguments pol_cmd {R}.
Arguments pol_to {R}.
Arguments pol_using {R}.
Arguments pol_with_check {R}.

Definition applies {R} (c : Cmd) (caller : Caller) (p : Policy R) : bool :=
  (Cmd_eqb (pol_cmd p) c || Cmd_eqb (pol_cmd p) ALL)
  && existsb (PgRole_eqb (pg_role caller)) (pol_to p).

Definition using_expr {R} (p : Policy R) : Pred R :=
  match pol_using p with
  | Some u => u
  | None => fun _ _ _ => true
  end.

(** Without WITH CHECK, the USING expression is used for both. *)
Definition check_expr {R} (p : Policy R) : Pred R :=
  match pol_with_check p with
  | Some w => w
  | None => using_expr p
  end.

(** With row-level security enabled a row is visible to a command when one
    permissive policy for that command and role accepts it; with no such
    policy no row is. *)
Definition using_ok {R} (pols : list (Policy R)) (c : Cmd)
    (db : DB) (caller : Caller) (row : R) : bool :=
  existsb (fun p => applies c caller p && using_expr p db caller row) pols.

Definition with_check_ok {R} (pols : list (Policy R)) (c : Cmd)
    (db : DB) (caller : Caller) (row : R) : bool :=
  existsb (fun p => applies c caller p && check_expr p db caller row) pols.

(** DROP POLICY IF EXISTS name *)
Definition drop_policy {R} (name : string) (pols : list (Policy R))
    : list (Policy R) :=
  filter (fun p => negb (String.eqb (pol_name p) name)) pols.

End Rls.
Import Rls.

(** ** Schema: policies

    Every table has row-level security enabled (ALTER TABLE .. ENABLE ROW
    LEVEL SECURITY), and the client connects with the anon key, so each of
    its requests is subject to the policies below. *)

Module Schema.

(** EXISTS (SELECT 1 FROM profiles WHERE profiles.id = auth.uid()
            AND profiles.role = 'super_admin') *)
Definition caller_is_super_admin (db : DB) (caller : Caller) : bool :=
  existsb (fun p => is_uid caller (profile_id p) && Role_eqb (role p) super_admin)
          (profiles db).

(** EXISTS (SELECT 1 FROM cash_register_closings
            WHERE cash_register_closings.id = closing_id
            AND cash_register_closings.professional_id = auth.uid()) *)
Definition owns_closing (db : DB) (caller : Caller) (cid : string) : bool :=
  existsb (fun c => String.eqb (closing_row_id c) cid
                    && is_uid caller (closing_professional_id c))
          (cash_register_closings db).

(** The same with AND cash_register_closings.is_finalized = false. *)
Definition owns_open_closing (db : DB) (caller : Caller) (cid : string) : bool :=
  existsb (fun c => String.eqb (closing_row_id c) cid
                    && is_uid caller (closing_professional_id c)
                    && Bool.eqb (is_finalized c) false)
          (cash_register_closings db).

(** Policies of the initial schema on [profiles]. *)
Definition profiles_policies_initial : list (Policy Profile) :=
  [ {| pol_name := "Users can view own profile";
       pol_cmd := SELECT; pol_to := [authenticated];
       pol_using := Some (fun _ c p => is_uid c (profile_id p));
       pol_with_check := None |};
    {| pol_name := "Super admins can view all profiles";
       pol_cmd := SELECT; pol_to := [authenticated];
       pol_using := Some (fun db c _ => caller_is_super_admin db c);
       pol_with_check := None |};
    {| pol_name := "Super admins can insert profiles";
       pol_cmd := INSERT; pol_to := [authenticated];
       pol_using := None;
       pol_with_check := Some (fun db c _ => caller_is_super_admin db c) |};
    {| pol_name := "Super admins can update profiles";
       pol_cmd := UPDATE; pol_to := [authenticated];
       pol_using := Some (fun db c _ => caller_is_super_admin db c);
       pol_with_check := None |};
    {| pol_name := "Users can update own profile";
       pol_cmd := UPDATE; pol_to := [authenticated];
       pol_using := Some (fun _ c p => is_uid c (profile_id p));
       pol_with_check := Some (fun _ c p => is_uid c (profile_id p)) |} ].

(** The later migration drops them and creates three in their place. *)
Definition profiles_policies : list (Policy Profile) :=
  drop_policy "Users can update own profile"
    (drop_policy "Users can view own profile"
      (drop_policy "Super admins can update profiles"
        (drop_policy "Super admins can insert profiles"
          (drop_policy "Super admins can view all profiles"
             profiles_policies_initial))))
  ++ [ {| pol_name := "Enable read access for authenticated users";
          pol_cmd := SELECT; pol_to := [authenticated];
          pol_using := Some (fun _ _ _ => true);
          pol_with_check := None |};
       {| pol_name := "Enable insert during signup";
          pol_cmd := INSERT; pol_to := [anon; authenticated];
          pol_using := None;
          pol_with_check := Some (fun _ _ _ => true) |};
       {| pol_name := "Enable update for own profile";
          pol_cmd := UPDATE; pol_to := [authenticated];
          pol_using := Some (fun _ c p => is_uid c (profile_id p));
          pol_with_check := Some (fun _ c p => is_uid c (profile_id p)) |} ].

Definition appointments_policies : list (Policy Appointment) :=
  [ {| pol_name := "Users can view own appointments";
       pol_cmd := SELECT; pol_to := [authenticated];
       pol_using := Some (fun _ c a => is_uid c (professional_id a));
       pol_with_check := None |};
    {| pol_name := "Super admins can view all appointments";
       pol_cmd := SELECT; pol_to := [authenticated];
       pol_using := Some (fun db c _ => caller_is_super_admin db c);
       pol_with_check := None |};
    {| pol_name := "Users can create own appointments";
       pol_cmd := INSERT; pol_to := [authenticated];
       pol_using := None;
       pol_with_check :=
         Some (fun _ c a =>
                 is_uid c (professional_id a)
                 && match created_by a with
                    | Some cb => is_uid c cb
                    | None => false
                    end) |};
    {| pol_name := "Super admins can create any appointment";
       pol_cmd := INSERT; pol_to := [authenticated];
       pol_using := None;
       pol_with_check := Some (fun db c _ => caller_is_super_admin db c) |};
    {| pol_name := "Users can update own appointments";
       pol_cmd := UPDATE; pol_to := [authenticated];
       pol_using := Some (fun _ c a => is_uid c (professional_id a));
       pol_with_check := Some (fun _ c a => is_uid c (professional_id a)) |};
    {| pol_name := "Super admins can update any appointment";
       pol_cmd := UPDATE; pol_to := [authenticated];
       pol_using := Some (fun db c _ => caller_is_super_admin db c);
       pol_with_check := None |} ].

Definition closings_policies : list (Policy CashRegisterClosing) :=
  [ {| pol_name := "Users can view own closings";
       pol_cmd := SELECT; pol_to := [authenticated];
       pol_using := Some (fun _ c r => is_uid c (closing_professional_id r));
       pol_with_check := None |};
    {| pol_name := "Super admins can view all closings";
       pol_cmd := SELECT; pol_to := [authenticated];
       pol_using := Some (fun db c _ => caller_is_super_admin db c);
       pol_with_check := None |};
    {| pol_name := "Users can create own closings";
       pol_cmd := INSERT; pol_to := [authenticated];
       pol_using := None;
       pol_with_check := Some (fun _ c r => is_uid c (closing_professional_id r)) |};
    {| pol_name := "Users can update own non-finalized closings";
       pol_cmd := UPDATE; pol_to := [authenticated];
       pol_using :=
         Some (fun _ c r => is_uid c (closing_professional_id r)
                            && Bool.eqb (is_finalized r) false);
       pol_with_check := Some (fun _ c r => is_uid c (closing_professional_id r)) |};
    {| pol_name := "Super admins can update any closing";
       pol_cmd := UPDATE; pol_to := [authenticated];
       pol_using := Some (fun db c _ => caller_is_super_admin db c);
       pol_with_check := None |} ].

Definition transactions_policies : list (Policy Transaction) :=
  [ {| pol_name := "Users can view own transactions";
       pol_cmd := SELECT; pol_to := [authenticated];
       pol_using := Some (fun db c t => owns_closing db c (closing_id t));
       pol_with_check := None |};
    {| pol_name := "Super admins can view all transactions";
       pol_cmd := SELECT; pol_to := [authenticated];
       pol_using := Some (fun db c _ => caller_is_super_admin db c);
       pol_with_check := None |};
    {| pol_name := "Users can create own transactions";
       pol_cmd := INSERT; pol_to := [authenticated];
       pol_using := None;
       pol_with_check := Some (fun db c t => owns_open_closing db c (closing_id t)) |};
    {| pol_name := "Super admins can create any transaction";
       pol_cmd := INSERT; pol_to := [authenticated];
       pol_using := None;
       pol_with_check := Some (fun db c _ => caller_is_super_admin db c) |} ].

End Schema.
Import Schema.

(** ** The datastore interface: select, insert, update, delete per table *)

Module Store.

Inductive Res (A : Type) :=
  | Ok (a : A)
  | Err (e : PgError).
Arguments Ok {A}.
Arguments Err {A}.

Definition bind {A B} (m : Res A) (k : A -> Res B) : Res B :=
  match m with
  | Ok a => k a
  | Err e => Err e
  end.

Definition require (b : bool) (e : PgError) : Res unit :=
  if b then Ok tt else Err e.

Notation "x <- m ;; k" := (bind m (fun x => k))
  (at level 61, m at next level, right associativity).
Notation "'ensure' b 'else' e ;; k" := (bind (require b e) (fun _ => k))
  (at level 61, b at next level, e at next level, right associativity).

(** numeric(10, 2): fewer than 10^8 units, that is 10^10 cents. *)
Definition numeric_10_2 (z : Z) : bool := Z.abs z <? 10000000000.

Definition has_profile (db : DB) (id : string) : bool :=
  existsb (fun p => String.eqb (profile_id p) id) (profiles db).
Definition has_patient (db : DB) (id : string) : bool :=
  existsb (fun p => String.eqb (patient_row_id p) id) (patients db).
Definition has_procedure (db : DB) (id : string) : bool :=
  existsb (fun p => String.eqb (procedure_row_id p) id) (procedures db).
Definition has_appointment (db : DB) (id : string) : bool :=
  existsb (fun a => String.eqb (appointment_row_id a) id) (appointments db).
Definition has_closing (db : DB) (id : string) : bool :=
  existsb (fun c => String.eqb (closing_row_id c) id) (cash_register_closings db).
Definition has_transaction (db : DB) (id : string) : bool :=
  existsb (fun t => String.eqb (transaction_id t) id) (cash_register_transactions db).
Definition has_email (db : DB) (e : string) : bool :=
  existsb (fun p => String.eqb (email p) e) (profiles db).

Definition opt_ref (has : string -> bool) (o : option string) : bool :=
  match o with Some id => has id | None => true end.

(** The key of UNIQUE (professional_id, appointment_date, appointment_time). *)
Definition same_slot (prof date time : string) (a : Appointment) : bool :=
  String.eqb (professional_id a) prof
  && String.eqb (appointment_date a) date
  && String.eqb (appointment_time a) time.

(** The name under which the store reports a violation of that key. *)
Definition slot_constraint : string :=
  "appointments_professional_id_appointment_date_appointment_time_key".

Definition slot_taken (db : DB) (prof date time : string) : bool :=
  existsb (same_slot prof date time) (appointments db).

(** The key of UNIQUE (professional_id, closing_date). *)
Definition same_day (prof date : string) (c : CashRegisterClosing) : bool :=
  String.eqb (closing_professional_id c) prof
  && String.eqb (closing_date c) date.

Definition day_taken (db : DB) (prof date : string) : bool :=
  existsb (same_day prof date) (cash_register_closings db).

(** *** select *)

Definition select_from {R} (pols : list (Policy R)) (db : DB) (caller : Caller)
    (where_ : R -> bool) (tbl : list R) : list R :=
  filter (fun r => where_ r && using_ok pols SELECT db caller r) tbl.

(** *** insert: the values are first brought to the column types (a value
    that does not fit numeric(10, 2) ends the statement there), then come
    the policy check, the CHECK constraints, the keys and the references *)

Definition insert_profile (db : DB) (caller : Caller) (p : Profile) : Res DB :=
  ensure with_check_ok profiles_policies INSERT db caller p
    else rls_violation "profiles" ;;
  ensure negb (has_profile db (profile_id p))
    else unique_violation "profiles_pkey" ;;
  ensure negb (has_email db (email p))
    else unique_violation "profiles_email_key" ;;
  Ok (set_profiles db (profiles db ++ [p])).

Definition insert_appointment (db : DB) (caller : Caller) (a : Appointment)
    : Res DB :=
  ensure with_check_ok appointments_policies INSERT db caller a
    else rls_violation "appointments" ;;
  ensure negb (has_appointment db (appointment_row_id a))
    else unique_violation "appointments_pkey" ;;
  ensure negb (slot_taken db (professional_id a) (appointment_date a)
                            (appointment_time a))
    else unique_violation slot_constraint ;;
  ensure has_patient db (patient_id a)
    else foreign_key_violation "appointments_patient_id_fkey" ;;
  ensure has_procedure db (procedure_id a)
    else foreign_key_violation "appointments_procedure_id_fkey" ;;
  ensure has_profile db (professional_id a)
    else foreign_key_violation "appointments_professional_id_fkey" ;;
  ensure opt_ref (has_profile db) (created_by a)
    else foreign_key_violation "appointments_created_by_fkey" ;;
  Ok (set_appointments db (appointments db ++ [a])).

Definition insert_closing (db : DB) (caller : Caller) (c : CashRegisterClosing)
    : Res DB :=
  ensure numeric_10_2 (total_amount c)
    else numeric_field_overflow ;;
  ensure with_check_ok closings_policies INSERT db caller c
    else rls_violation "cash_register_closings" ;;
  ensure negb (has_closing db (closing_row_id c))
    else unique_violation "cash_register_closings_pkey" ;;
  ensure negb (day_taken db (closing_professional_id c) (closing_date c))
    else unique_violation
      "cash_register_closings_professional_id_closing_date_key" ;;
  ensure has_profile db (closing_professional_id c)
    else foreign_key_violation "cash_register_closings_professional_id_fkey" ;;
  Ok (set_closings db (cash_register_closings db ++ [c])).

Definition insert_transaction (db : DB) (caller : Caller) (t : Transaction)
    : Res DB :=
  ensure numeric_10_2 (amount t)
    else numeric_field_overflow ;;
  ensure with_check_ok transactions_policies INSERT db caller t
    else rls_violation "cash_register_transactions" ;;
  ensure (0 <=? amount t)
    else check_violation "cash_register_transactions_amount_check" ;;
  ensure negb (has_transaction db (transaction_id t))
    else unique_violation "cash_register_transactions_pkey" ;;
  ensure has_closing db (closing_id t)
    else foreign_key_violation "cash_register_transactions_closing_id_fkey" ;;
  ensure opt_ref (has_appointment db) (appointment_id t)
    else foreign_key_violation "cash_register_transactions_appointment_id_fkey" ;;
  Ok (set_transactions db (cash_register_transactions db ++ [t])).

(** *** update: rows the WHERE clause and an UPDATE policy both accept are
    rewritten; a rewritten row that fails WITH CHECK or a column check
    aborts the statement; rows no policy accepts are silently skipped. *)

Fixpoint update_rows {R} (pols : list (Policy R)) (table_name : string)
    (db : DB) (caller : Caller) (where_ : R -> bool) (set : R -> R)
    (valid : R -> Res unit) (tbl : list R) : Res (list R) :=
  match tbl with
  | [] => Ok []
  | r :: rest =>
      if where_ r && using_ok pols UPDATE db caller r then
        ensure with_check_ok pols UPDATE db caller (set r)
          else rls_violation table_name ;;
        _ <- valid (set r) ;;
        rest' <- update_rows pols table_name db caller where_ set valid rest ;;
        Ok (set r :: rest')
      else
        rest' <- update_rows pols table_name db caller where_ set valid rest ;;
        Ok (r :: rest')
  end.

Definition update_appointments (db : DB) (caller : Caller)
    (where_ : Appointment -> bool) (set : Appointment -> Appointment) : Res DB :=
  l <- update_rows appointments_policies "appointments" db caller where_ set
         (fun _ => Ok tt) (appointments db) ;;
  Ok (set_appointments db l).

(** [valid] checks the columns the statement assigns. On closings every
    row an UPDATE policy admits also passes WITH CHECK, so the place of the
    column check relative to it does not show. *)
Definition update_closings (db : DB) (caller : Caller)
    (where_ : CashRegisterClosing -> bool)
    (set : CashRegisterClosing -> CashRegisterClosing)
    (valid : CashRegisterClosing -> Res unit) : Res DB :=
  l <- update_rows closings_policies "cash_register_closings" db caller where_ set
         valid (cash_register_closings db) ;;
  Ok (set_closings db l).

Definition total_amount_fits (c : CashRegisterClosing) : Res unit :=
  require (numeric_10_2 (total_amount c)) numeric_field_overflow.

(** *** delete: only rows that the WHERE clause and a DELETE policy both
    accept are removed; the statement reports no error for the others. *)

Definition delete_rows {R} (pols : list (Policy R)) (db : DB) (caller : Caller)
    (where_ : R -> bool) (tbl : list R) : list R :=
  filter (fun r => negb (where_ r && using_ok pols DELETE db caller r)) tbl.

Definition delete_transactions (db : DB) (caller : Caller)
    (where_ : Transaction -> bool) : Res DB :=
  Ok (set_transactions db
        (delete_rows transactions_policies db caller where_
           (cash_register_transactions db))).

End Store.
Import Store.

(** ** The client *)

(** JavaScript's [x || null] on a form string: the empty string is falsy. *)
Definition or_null (s : string) : option string :=
  if String.eqb s "" then None else Some s.

(** [reduce((sum, t) => sum + t.amount, 0)] *)
Definition sum_amounts (l : list Transaction) : Z :=
  fold_left (fun sum t => sum + amount t) l 0.

(** [.maybeSingle()]: the row when exactly one matches, else no data. *)
Definition maybeSingle {R} (rows : list R) : option R :=
  match rows with
  | [r] => Some r
  | _ => None
  end.

(** *** AuthContext.tsx *)

Module AuthProvider.

(** What [supabase.auth.signUp] answers: an error, or the created user,
    with or without a session for the following requests. *)
Record AuthResponse := {
  signUpError : bool;
  auth_user : option string;
  auth_session : bool }.

Definition request_caller (resp : AuthResponse) (uid : string) : Caller :=
  if auth_session resp then Some uid else None.

(** [select('*', { count: 'exact', head: true })] on profiles. *)
Definition count_profiles (db : DB) (caller : Caller) : nat :=
  List.length (select_from profiles_policies db caller (fun _ => true) (profiles db)).

Definition signUp (db : DB) (resp : AuthResponse) (email_ fullName : string)
    : DB * Outcome :=
  if signUpError resp then (db, Failed AuthError)
  else
    match auth_user resp with
    | None => (db, Failed NoUserReturned)
    | Some uid =>
        let caller := request_caller resp uid in
        let count := count_profiles db caller in
        let isFirstUser := Nat.eqb count 0 in
        match
          insert_profile db caller
            {| profile_id := uid;
               email := email_;
               full_name := fullName;
               role := if isFirstUser then super_admin else user;
               is_active := true |}
        with
        | Err e => (db, Failed (Storage e))
        | Ok db' => (db', Done)
        end
    end.

End AuthProvider.

(** *** CashRegister.tsx *)

Module CashRegister.

Definition createClosing (db : DB) (user_ : Caller) (today new_id : string)
    : DB * Outcome :=
  let existing :=
    maybeSingle
      (select_from closings_policies db user_
         (fun c => is_uid user_ (closing_professional_id c)
                   && String.eqb (closing_date c) today)
         (cash_register_closings db)) in
  match existing with
  | Some _ => (db, Failed ClosingAlreadyExists)
  | None =>
      match user_ with
      | None => (db, Failed (Storage (rls_violation "cash_register_closings")))
      | Some uid =>
          match
            insert_closing db user_
              {| closing_row_id := new_id;
                 closing_professional_id := uid;
                 closing_date := today;
                 total_amount := 0;
                 closing_notes := None;
                 is_finalized := false;
                 finalized_at := None |}
          with
          | Err e => (db, Failed (Storage e))
          | Ok db' => (db', Done)
          end
      end
  end.

End CashRegister.

Module TransactionsModal.

(** Rows of the closing, newest first ([order('created_at', desc)]). *)
Definition loadTransactions (db : DB) (caller : Caller)
    (closing : CashRegisterClosing) : list Transaction :=
  rev (select_from transactions_policies db caller
         (fun t => String.eqb (closing_id t) (closing_row_id closing))
         (cash_register_transactions db)).

(** [transactions.filter((t) => t.id !== transactions[0]?.id)] *)
Definition without_first (transactions : list Transaction) : list Transaction :=
  match transactions with
  | [] => []
  | t0 :: _ =>
      filter (fun t => negb (String.eqb (transaction_id t) (transaction_id t0)))
             transactions
  end.

Definition set_total (total : Z) (c : CashRegisterClosing) : CashRegisterClosing :=
  {| closing_row_id := closing_row_id c;
     closing_professional_id := closing_professional_id c;
     closing_date := closing_date c;
     total_amount := total;
     closing_notes := closing_notes c;
     is_finalized := is_finalized c;
     finalized_at := finalized_at c |}.

(** The result of the update is not inspected. *)
Definition updateTotal (db : DB) (caller : Caller)
    (closing : CashRegisterClosing) (transactions : list Transaction) : DB :=
  let total := sum_amounts (without_first transactions) in
  match
    update_closings db caller
      (fun c => String.eqb (closing_row_id c) (closing_row_id closing))
      (set_total total) total_amount_fits
  with
  | Ok db' => db'
  | Err _ => db
  end.

Definition deleteTransaction (db : DB) (caller : Caller)
    (closing : CashRegisterClosing) (transactions : list Transaction)
    (confirmed : bool) (transactionId : string) : DB * Outcome :=
  if negb confirmed then (db, Done)
  else
    match
      delete_transactions db caller
        (fun t => String.eqb (transaction_id t) transactionId)
    with
    | Err e => (db, Failed (Storage e))
    | Ok db1 => (updateTotal db1 caller closing transactions, Done)
    end.

Definition set_finalized (now : string) (c : CashRegisterClosing)
    : CashRegisterClosing :=
  {| closing_row_id := closing_row_id c;
     closing_professional_id := closing_professional_id c;
     closing_date := closing_date c;
     total_amount := total_amount c;
     closing_notes := closing_notes c;
     is_finalized := true;
     finalized_at := Some now |}.

Definition finalizeClosing (db : DB) (caller : Caller)
    (closing : CashRegisterClosing) (confirmed : bool) (now : string)
    : DB * Outcome :=
  if negb confirmed then (db, Done)
  else
    match
      update_closings db caller
        (fun c => String.eqb (closing_row_id c) (closing_row_id closing))
        (set_finalized now) (fun _ => Ok tt)
    with
    | Err e => (db, Failed (Storage e))
    | Ok db' => (db', Done)
    end.

(** The render guards [!closing.is_finalized] on the "Nova Transacao"
    button, on each row's delete button and on the "Finalizar" button. *)
Definition offers_add (closing : CashRegisterClosing) : bool :=
  negb (is_finalized closing).
Definition offers_delete (closing : CashRegisterClosing) : bool :=
  negb (is_finalized closing).
Definition offers_finalize (closing : CashRegisterClosing) : bool :=
  negb (is_finalized closing).

End TransactionsModal.

Module AddTransactionModal.

Definition handleSubmit (db : DB) (caller : Caller) (closingId : string)
    (appointmentId : string) (amount_ : Z) (paymentMethod notes : string)
    (new_id : string) : DB * Outcome :=
  match
    insert_transaction db caller
      {| transaction_id := new_id;
         closing_id := closingId;
         appointment_id := or_null appointmentId;
         amount := amount_;
         payment_method := paymentMethod;
         transaction_notes := or_null notes |}
  with
  | Err transactionError => (db, Failed (Storage transactionError))
  | Ok db1 =>
      let transactions :=
        select_from transactions_policies db1 caller
          (fun t => String.eqb (closing_id t) closingId)
          (cash_register_transactions db1) in
      let total := sum_amounts transactions + amount_ in
      match
        update_closings db1 caller
          (fun c => String.eqb (closing_row_id c) closingId)
          (TransactionsModal.set_total total) total_amount_fits
      with
      | Err updateError => (db1, Failed (Storage updateError))
      | Ok db2 => (db2, Done)
      end
  end.

End AddTransactionModal.

(** *** Agenda *)

Module AppointmentDetailsModal.

Definition set_status (newStatus : Status) (a : Appointment) : Appointment :=
  {| appointment_row_id := appointment_row_id a;
     patient_id := patient_id a;
     procedure_id := procedure_id a;
     professional_id := professional_id a;
     appointment_date := appointment_date a;
     appointment_time := appointment_time a;
     status := newStatus;
     cancellation_reason := cancellation_reason a;
     created_by := created_by a |}.

Definition updateStatus (db : DB) (caller : Caller) (appointment : Appointment)
    (newStatus : Status) : DB * Outcome :=
  match
    update_appointments db caller
      (fun a => String.eqb (appointment_row_id a) (appointment_row_id appointment))
      (set_status newStatus)
  with
  | Err e => (db, Failed (Storage e))
  | Ok db' => (db', Done)
  end.

(** The render guards of the three buttons under "Alterar Status". *)
Definition shows_confirm (s : Status) : bool :=
  negb (Status_eqb s confirmed) && negb (Status_eqb s completed)
  && negb (Status_eqb s cancelled).
Definition shows_complete (s : Status) : bool :=
  negb (Status_eqb s completed) && negb (Status_eqb s cancelled).
Definition shows_cancel (s : Status) : bool :=
  negb (Status_eqb s cancelled) && negb (Status_eqb s completed).

(** The statuses a button is rendered for, in the order of the buttons. *)
Definition offered (s : Status) : list Status :=
  (if shows_confirm s then [confirmed] else [])
  ++ (if shows_complete s then [completed] else [])
  ++ (if shows_cancel s then [cancelled] else []).

(** A click on the button for [newStatus], when the modal renders it for
    the appointment it was opened with. *)
Definition click (db : DB) (caller : Caller) (appointment : Appointment)
    (newStatus : Status) : DB * Outcome :=
  if existsb (Status_eqb newStatus) (offered (status appointment))
  then updateStatus db caller appointment newStatus
  else (db, Done).

End AppointmentDetailsModal.

Module CreateAppointmentModal.

(** The form state of the modal. *)
Record Form := {
  patientId : string;
  procedureId : string;
  professionalId : string;
  appointmentDate : string;
  appointmentTime : string }.

Definition truthy (s : string) : bool := negb (String.eqb s "").


(** The rows of the pre-check query; [conflict] is set to
    [(data || []).length > 0]. *)
Definition checkConflict (db : DB) (caller : Caller) (f : Form) : bool :=
  negb (Nat.eqb
          (List.length
             (select_from appointments_policies db caller
                (fun a => String.eqb (professional_id a) (professionalId f)
                          && String.eqb (appointment_date a) (appointmentDate f)
                          && String.eqb (appointment_time a) (appointmentTime f)
                          && negb (Status_eqb (status a) cancelled))
                (appointments db)))
          0).


(** The row [handleSubmit] sends: the form, status 'scheduled' and
    [created_by: user?.id]. *)
Definition submitted_row (user_ : Caller) (f : Form) (new_id : string)
    : Appointment :=
  {| appointment_row_id := new_id;
     patient_id := patientId f;
     procedure_id := procedureId f;
     professional_id := professionalId f;
     appointment_date := appointmentDate f;
     appointment_time := appointmentTime f;
     status := scheduled;
     cancellation_reason := None;
     created_by := user_ |}.

Definition handleSubmit (db : DB) (user_ : Caller) (f : Form) (conflict : bool)
    (new_id : string) : DB * Outcome :=
  if conflict then (db, Failed SlotConflict)
  else
    match insert_appointment db user_ (submitted_row user_ f new_id) with
    | Err insertError => (db, Failed (Storage insertError))
    | Ok db' => (db', Done)
    end.

End CreateAppointmentModal.

(** ** One user action on the datastore *)

(** Every write the client makes to the appointment and cash-register tables,
    by any caller and with any argument; [step_other] stands for the pages
    that write only the other tables (Users, Patients, Procedures). *)
Inductive step : DB -> DB -> Prop :=
  | step_signUp db resp e n :
      step db (fst (AuthProvider.signUp db resp e n))
  | step_createClosing db u today id :
      step db (fst (CashRegister.createClosing db u today id))
  | step_addTransaction db u cid aid amt pm notes id :
      step db (fst (AddTransactionModal.handleSubmit db u cid aid amt pm notes id))
  | step_deleteTransaction db u closing txs confirmed tid :
      step db (fst (TransactionsModal.deleteTransaction db u closing txs confirmed tid))
  | step_finalizeClosing db u closing confirmed now :
      step db (fst (TransactionsModal.finalizeClosing db u closing confirmed now))
  | step_createAppointment db u f conflict id :
      step db (fst (CreateAppointmentModal.handleSubmit db u f conflict id))
  | step_updateStatus db u a s :
      step db (fst (AppointmentDetailsModal.updateStatus db u a s))
  | step_other db db' :
      appointments db' = appointments db ->
      cash_register_closings db' = cash_register_closings db ->
      cash_register_transactions db' = cash_register_transactions db ->
      step db db'.

Inductive steps : DB -> DB -> Prop :=
  | steps_refl db : steps db db
  | steps_cons db1 db2 db3 : step db1 db2 -> steps db2 db3 -> steps db1 db3.

Definition Reachable (db : DB) : Prop := steps empty_db db.

(** ** Vocabulary of the properties *)

(** The key of the slot constraint and of the closing-per-day constraint. *)
Definition slot_key (a : Appointment) : string * string * string :=
  (professional_id a, appointment_date a, appointment_time a).

Definition day_key (c : CashRegisterClosing) : string * string :=
  (closing_professional_id c, closing_date c).

Definition unique_slots (db : DB) : Prop :=
  NoDup (map slot_key (appointments db)).

Definition unique_days (db : DB) : Prop :=
  NoDup (map day_key (cash_register_closings db)).

(** The transactions a closing currently has in the store. *)
Definition closing_transactions (db : DB) (cid : string) : list Transaction :=
  filter (fun t => String.eqb (closing_id t) cid) (cash_register_transactions db).

(** The stored [total_amount] of the closing with the given id. *)
Definition stored_total (db : DB) (cid : string) : option Z :=
  option_map total_amount
    (find (fun c => String.eqb (closing_row_id c) cid) (cash_register_closings db)).

Definition stored_status (db : DB) (aid : string) : option Status :=
  option_map status
    (find (fun a => String.eqb (appointment_row_id a) aid) (appointments db)).

(** The rows a successful UPDATE on closings rewrites. *)
Definition closing_hit (db : DB) (caller : Caller) (cid : string)
    (c : CashRegisterClosing) : bool :=
  String.eqb (closing_row_id c) cid
  && using_ok closings_policies UPDATE db caller c.

(** The status rule in the words of the specification: from scheduled to
    confirmed or cancelled, from confirmed to completed or cancelled, and
    nothing from completed or cancelled. *)
Definition spec_valid_next (s : Status) : list Status :=
  match s with
  | scheduled => [confirmed; cancelled]
  | confirmed => [completed; cancelled]
  | completed => []
  | cancelled => []
  end.

(** The shapes one action can give to the closings and to the appointments. *)

Inductive closings_change (l : list CashRegisterClosing)
    : list CashRegisterClosing -> Prop :=
  | cc_same : closings_change l l
  | cc_insert c :
      existsb (same_day (closing_professional_id c) (closing_date c)) l = false ->
      total_amount c = 0 -> is_finalized c = false ->
      closings_change l (l ++ [c])
  | cc_total h z :
      closings_change l
        (map (fun r => if h r : bool then TransactionsModal.set_total z r else r) l)
  | cc_finalized h now :
      closings_change l
        (map (fun r => if h r : bool then TransactionsModal.set_finalized now r else r) l).

Inductive appointments_change (l : list Appointment) : list Appointment -> Prop :=
  | ac_same : appointments_change l l
  | ac_insert a :
      existsb (same_slot (professional_id a) (appointment_date a)
                         (appointment_time a)) l = false ->
      appointments_change l (l ++ [a])
  | ac_status h s :
      appointments_change l
        (map (fun r => if h r : bool then AppointmentDetailsModal.set_status s r
                       else r) l).

(** ** Concrete stores used in the examples *)

Module Sample.

Definition adm : Profile :=
  {| profile_id := "u-adm"; email := "adm@clinic"; full_name := "Adm";
     role := super_admin; is_active := true |}.
Definition ana : Profile :=
  {| profile_id := "u-ana"; email := "ana@clinic"; full_name := "Ana";
     role := user; is_active := true |}.
Definition bia : Profile :=
  {| profile_id := "u-bia"; email := "bia@clinic"; full_name := "Bia";
     role := user; is_active := true |}.

Definition limpeza : Procedure :=
  {| procedure_row_id := "pr-y"; procedure_name := "Limpeza";
     duration_minutes := 30; procedure_is_active := true |}.

Definition patient_x : Patient :=
  {| patient_row_id := "pt-x"; patient_full_name := "X";
     patient_professional_id := "u-ana" |}.
Definition patient_z : Patient :=
  {| patient_row_id := "pt-z"; patient_full_name := "Z";
     patient_professional_id := "u-ana" |}.
Definition patient_w : Patient :=
  {| patient_row_id := "pt-w"; patient_full_name := "W";
     patient_professional_id := "u-bia" |}.

(** Ana's appointment at 2024-01-10 09:00, in a given status. *)
Definition ana_0900 (s : Status) : Appointment :=
  {| appointment_row_id := "a-1"; patient_id := "pt-x"; procedure_id := "pr-y";
     professional_id := "u-ana"; appointment_date := "2024-01-10";
     appointment_time := "09:00"; status := s;
     cancellation_reason := None; created_by := Some "u-ana" |}.

(** Ana's closing of 2024-01-10. *)
Definition closing_of_ana (total : Z) (finalized : bool) : CashRegisterClosing :=
  {| closing_row_id := "c-1"; closing_professional_id := "u-ana";
     closing_date := "2024-01-10"; total_amount := total;
     closing_notes := None; is_finalized := finalized;
     finalized_at := if finalized then Some "2024-01-10T18:00:00Z" else None |}.

Definition t1 : Transaction :=
  {| transaction_id := "t-1"; closing_id := "c-1"; appointment_id := None;
     amount := 1000; payment_method := "Dinheiro"; transaction_notes := None |}.
Definition t2 : Transaction :=
  {| transaction_id := "t-2"; closing_id := "c-1"; appointment_id := None;
     amount := 2000; payment_method := "PIX"; transaction_notes := None |}.

Definition clinic (apts : list Appointment) (cls : list CashRegisterClosing)
    (txs : list Transaction) : DB :=
  {| profiles := [adm; ana; bia];
     procedures := [limpeza];
     patients := [patient_x; patient_z; patient_w];
     appointments := apts;
     cash_register_closings := cls;
     cash_register_transactions := txs |}.

(** Ana holds 2024-01-10 09:00 with a live appointment. *)
Definition booked : DB := clinic [ana_0900 scheduled] [] [].

(** The only appointment in Ana's 09:00 slot is cancelled. *)
Definition cancelled_slot : DB := clinic [ana_0900 cancelled] [] [].

(** An open closing without transactions. *)
Definition opened : DB := clinic [] [closing_of_ana 0 false] [].

(** An open closing with two transactions, [t1] older than [t2]. *)
Definition two_sales : DB := clinic [] [closing_of_ana 3000 false] [t1; t2].

(** The same closing once finalized. *)
Definition closed : DB := clinic [] [closing_of_ana 3000 true] [t1; t2].

(** A store whose only profile is the first super admin. *)
Definition one_admin : DB := set_profiles empty_db [adm].

Definition form_for (patient professional : string) : CreateAppointmentModal.Form :=
  {| CreateAppointmentModal.patientId := patient;
     CreateAppointmentModal.procedureId := "pr-y";
     CreateAppointmentModal.professionalId := professional;
     CreateAppointmentModal.appointmentDate := "2024-01-10";
     CreateAppointmentModal.appointmentTime := "09:00" |}.

(** The authentication service created the user; [session] tells whether
    it also opened a session. *)
Definition created (uid : string) (session : bool) : AuthProvider.AuthResponse :=
  {| AuthProvider.signUpError := false;
     AuthProvider.auth_user := Some uid;
     AuthProvider.auth_session := session |}.

End Sample.

(** ** More of the client: session state, Users page, Agenda and lists *)

(** The store's update on profiles; [valid] checks the columns assigned. *)
Definition update_profiles (db : DB) (caller : Caller)
    (where_ : Profile -> bool) (set : Profile -> Profile)
    (valid : Profile -> Res unit) : Res DB :=
  l <- update_rows profiles_policies "profiles" db caller where_ set valid
         (profiles db) ;;
  Ok (set_profiles db l).

(** [.order(column)]: rows by ascending key. The store promises no order
    among rows with equal keys; the model takes the one its sort gives. *)
Module ByTime <: Orders.TotalLeBool.
Definition t := Appointment.
Definition leb (a b : Appointment) : bool :=
  String.leb (appointment_time a) (appointment_time b).
Definition leb_total : forall a b, leb a b = true \/ leb b a = true :=
  fun a b => String.leb_total (appointment_time a) (appointment_time b).
End ByTime.

Module SortByTime := Mergesort.Sort ByTime.

(** [.order('closing_date', { ascending: false })] *)
Module ByDateDesc <: Orders.TotalLeBool.
Definition t := CashRegisterClosing.
Definition leb (a b : CashRegisterClosing) : bool :=
  String.leb (closing_date b) (closing_date a).
Definition leb_total : forall a b, leb a b = true \/ leb b a = true :=
  fun a b => String.leb_total (closing_date b) (closing_date a).
End ByDateDesc.

Module SortByDateDesc := Mergesort.Sort ByDateDesc.

(** The filter on the professional shared by the Agenda and the closings
    list: [if (!isSuperAdmin && user) .. else if (selectedProfessional) ..]. *)
Definition professional_filter (user_ : Caller) (isSuperAdmin : bool)
    (selectedProfessional : string) (prof : string) : bool :=
  match negb isSuperAdmin, user_ with
  | true, Some uid => String.eqb prof uid
  | _, _ =>
      if CreateAppointmentModal.truthy selectedProfessional
      then String.eqb prof selectedProfessional
      else true
  end.

Module AuthContext.

(** [loadProfile]: the profile with the given id, or null when the request
    finds none or fails. *)
Definition loadProfile (db : DB) (caller : Caller) (userId : string)
    : option Profile :=
  maybeSingle
    (select_from profiles_policies db caller
       (fun p => String.eqb (profile_id p) userId) (profiles db)).

(** [profile?.role === 'super_admin'] *)
Definition isSuperAdmin (profile : option Profile) : bool :=
  match profile with
  | Some p => Role_eqb (role p) super_admin
  | None => false
  end.

End AuthContext.

Module UsersPage.

Definition set_is_active (b : bool) (p : Profile) : Profile :=
  {| profile_id := profile_id p; email := email p; full_name := full_name p;
     role := role p; is_active := b |}.

Definition handleToggleStatus (db : DB) (caller : Caller) (userId : string)
    (currentStatus : bool) : DB * Outcome :=
  match
    update_profiles db caller
      (fun p => String.eqb (profile_id p) userId)
      (set_is_active (negb currentStatus)) (fun _ => Ok tt)
  with
  | Err e => (db, Failed (Storage e))
  | Ok db' => (db', Done)
  end.

End UsersPage.

Module EditUserModal.

Definition set_fields (fullName email_ : string) (role_ : Role) (isActive : bool)
    (p : Profile) : Profile :=
  {| profile_id := profile_id p; email := email_; full_name := fullName;
     role := role_; is_active := isActive |}.

(** UNIQUE (email): no other profile holds the address. *)
Definition email_free_for (db : DB) (p : Profile) : Res unit :=
  require
    (negb (existsb (fun q => String.eqb (email q) (email p)
                             && negb (String.eqb (profile_id q) (profile_id p)))
                   (profiles db)))
    (unique_violation "profiles_email_key").

(** The update of the profile; the call to the authentication service that
    follows writes no table and its failure is only logged. *)
Definition handleSubmit (db : DB) (caller : Caller) (user_ : Profile)
    (fullName email_ : string) (role_ : Role) (isActive : bool) : DB * Outcome :=
  match
    update_profiles db caller
      (fun p => String.eqb (profile_id p) (profile_id user_))
      (set_fields fullName email_ role_ isActive) (email_free_for db)
  with
  | Err updateError => (db, Failed (Storage updateError))
  | Ok db' => (db', Done)
  end.

End EditUserModal.

Module CreateUserModal.

(** After [supabase.auth.signUp] the client holds the new user's session
    when one was opened, and its previous one otherwise. A missing user ends
    the function without success or error. *)
Definition handleSubmit (db : DB) (caller : Caller)
    (resp : AuthProvider.AuthResponse) (fullName email_ : string) (role_ : Role)
    : DB * Outcome :=
  if AuthProvider.signUpError resp then (db, Failed AuthError)
  else
    match AuthProvider.auth_user resp with
    | None => (db, Done)
    | Some uid =>
        let caller' := if AuthProvider.auth_session resp then Some uid else caller in
        match
          insert_profile db caller'
            {| profile_id := uid; email := email_; full_name := fullName;
               role := role_; is_active := true |}
        with
        | Err profileError => (db, Failed (Storage profileError))
        | Ok db' => (db', Done)
        end
    end.

End CreateUserModal.

Module Agenda.




(** One step of the reduce that groups by date:
    [if (!acc[d]) acc[d] = []; acc[d].push(apt)]. The object keeps its keys
    in the order they were first set. *)
Fixpoint push_group (d : string) (apt : Appointment)
    (acc : list (string * list Appointment)) : list (string * list Appointment) :=
  match acc with
  | [] => [(d, [apt])]
  | (k, v) :: rest =>
      if String.eqb k d then (k, (v ++ [apt])%list) :: rest
      else (k, v) :: push_group d apt rest
  end.

Definition groupedAppointments (appointments_ : list Appointment)
    : list (string * list Appointment) :=
  fold_left (fun acc apt => push_group (appointment_date apt) apt acc)
            appointments_ [].

(** [groupedAppointments[dateStr] || []] *)
Definition dayAppointments (grouped : list (string * list Appointment))
    (dateStr : string) : list Appointment :=
  match find (fun kv => String.eqb (fst kv) dateStr) grouped with
  | Some (_, v) => v
  | None => []
  end.

End Agenda.

Module CashRegisterPage.

(** [loadClosings] of the cash-register page; an empty [dateFilter] asks for
    every date. *)
Definition loadClosings (db : DB) (user_ : Caller) (isSuperAdmin : bool)
    (selectedProfessional dateFilter : string) : list CashRegisterClosing :=
  SortByDateDesc.sort
    (select_from closings_policies db user_
       (fun c => professional_filter user_ isSuperAdmin selectedProfessional
                   (closing_professional_id c)
                 && (if CreateAppointmentModal.truthy dateFilter
                     then String.eqb (closing_date c) dateFilter else true))
       (cash_register_closings db)).

(** The total the transactions modal displays:
    [transactions.reduce((sum, t) => sum + t.amount, 0)]. *)
Definition totalAmount (transactions : list Transaction) : Z :=
  sum_amounts transactions.

End CashRegisterPage.

(** A table after one action: its rows rewritten in place, keys kept, and
    at most one row with a fresh key added at the end. *)
Definition grows_by {R} (key : R -> string) (l l' : list R) : Prop :=
  exists f tail,
    (forall r, key (f r) = key r)
    /\ l' = (map f l ++ tail)%list
    /\ (tail = [] \/ exists r, tail = [r] /\ ~ In (key r) (map key l)).

(** What one table-writing function leaves of the three tables. *)
Definition keeps_keys (db db' : DB) : Prop :=
  grows_by appointment_row_id (appointments db) (appointments db')
  /\ grows_by closing_row_id (cash_register_closings db) (cash_register_closings db')
  /\ (cash_register_transactions db' = cash_register_transactions db
      \/ exists t,
           cash_register_transactions db'
           = (cash_register_transactions db ++ [t])%list
           /\ has_transaction db (transaction_id t) = false
           /\ has_closing db (closing_id t) = true
           /\ opt_ref (has_appointment db) (appointment_id t) = true
           /\ 0 <= amount t < 10000000000).

(** The keys and references of the schema, as properties of a store. *)
Definition primary_keys_hold (db : DB) : Prop :=
  NoDup (map appointment_row_id (appointments db))
  /\ NoDup (map closing_row_id (cash_register_closings db))
  /\ NoDup (map transaction_id (cash_register_transactions db)).

Definition transactions_well_formed (db : DB) : Prop :=
  forall t, In t (cash_register_transactions db) ->
    has_closing db (closing_id t) = true
    /\ opt_ref (has_appointment db) (appointment_id t) = true
    /\ 0 <= amount t < 10000000000.

(** ** Facts about the datastore *)

Section StoreFacts.

Lemma set_appointments_same db : set_appointments db (appointments db) = db.
Proof. destruct db; reflexivity. Qed.

Lemma set_closings_same db : set_closings db (cash_register_closings db) = db.
Proof. destruct db; reflexivity. Qed.

Lemma set_transactions_same db :
  set_transactions db (cash_register_transactions db) = db.
Proof. destruct db; reflexivity. Qed.

Context {R : Type} (pols : list (Policy R)) (table_name : string)
        (db : DB) (caller : Caller)
        (where_ : R -> bool) (set : R -> R) (valid : R -> Res unit).

Let hit (r : R) : bool := where_ r && using_ok pols UPDATE db caller r.

(** A successful update is the pointwise rewrite of the rows it hits. *)
Lemma update_rows_shape tbl l :
  update_rows pols table_name db caller where_ set valid tbl = Ok l ->
  l = map (fun r => if hit r then set r else r) tbl.
Proof.
  revert l; induction tbl as [|r rest IH]; intros l H; simpl in H.
  - now inversion H.
  - simpl. fold (hit r) in H. destruct (hit r).
    + unfold bind, require in H.
      destruct (with_check_ok pols UPDATE db caller (set r)); [|discriminate].
      destruct (valid (set r)); [|discriminate].
      destruct (update_rows pols table_name db caller where_ set valid rest)
        as [l'|e]; [|discriminate].
      inversion H; subst. now rewrite (IH l' eq_refl).
    + unfold bind in H.
      destruct (update_rows pols table_name db caller where_ set valid rest)
        as [l'|e]; [|discriminate].
      inversion H; subst. now rewrite (IH l' eq_refl).
Qed.

(** An update that hits no row succeeds and changes nothing. *)
Lemma update_rows_untouched tbl :
  (forall r, In r tbl -> hit r = false) ->
  update_rows pols table_name db caller where_ set valid tbl = Ok tbl.
Proof.
  induction tbl as [|r rest IH]; intros H; simpl; [reflexivity|].
  fold (hit r). rewrite (H r (or_introl eq_refl)).
  rewrite IH; [reflexivity|]. intros r' Hr'. apply H. now right.
Qed.

(** An update whose rewritten rows all pass WITH CHECK and the column
    checks succeeds. *)
Lemma update_rows_succeeds tbl :
  (forall r, In r tbl -> hit r = true ->
     with_check_ok pols UPDATE db caller (set r) = true
     /\ valid (set r) = Ok tt) ->
  update_rows pols table_name db caller where_ set valid tbl
  = Ok (map (fun r => if hit r then set r else r) tbl).
Proof.
  induction tbl as [|r rest IH]; intros H; simpl; [reflexivity|].
  fold (hit r). destruct (hit r) eqn:Hr.
  - destruct (H r (or_introl eq_refl) Hr) as [Hc Hv].
    rewrite Hc, Hv. simpl. rewrite IH; [reflexivity|].
    intros r' Hr'. apply H. now right.
  - rewrite IH; [reflexivity|]. intros r' Hr'. apply H. now right.
Qed.

End StoreFacts.

Section PolicyFacts.

Variables (db : DB) (caller : Caller).

Lemma super_admin_needs_session :
  caller_is_super_admin db None = false.
Proof.
  unfold caller_is_super_admin. induction (profiles db); simpl; auto.
Qed.

(** The UPDATE policies on closings: the owner while the row is open, or a
    super admin. *)
Lemma closings_update_using c :
  using_ok closings_policies UPDATE db caller c
  = (is_uid caller (closing_professional_id c) && negb (is_finalized c))
    || caller_is_super_admin db caller.
Proof.
  destruct caller as [u|]; cbn.
  - destruct (is_finalized c); cbn;
      rewrite ?andb_true_r, ?andb_false_r, ?orb_false_r; reflexivity.
  - now rewrite super_admin_needs_session.
Qed.

Lemma closings_update_check c :
  with_check_ok closings_policies UPDATE db caller c
  = is_uid caller (closing_professional_id c)
    || caller_is_super_admin db caller.
Proof.
  destruct caller as [u|]; cbn.
  - rewrite ?orb_false_r; reflexivity.
  - now rewrite super_admin_needs_session.
Qed.

(** The INSERT policies on transactions: the owner of the open closing, or
    a super admin. *)
Lemma transactions_insert_check t :
  with_check_ok transactions_policies INSERT db caller t
  = owns_open_closing db caller (closing_id t)
    || caller_is_super_admin db caller.
Proof.
  destruct caller as [u|]; cbn.
  - rewrite ?orb_false_r; reflexivity.
  - rewrite super_admin_needs_session.
    unfold owns_open_closing.
    induction (cash_register_closings db); simpl; auto.
    now rewrite andb_false_r.
Qed.

(** An UPDATE with a WHERE clause also reads the rows it changes; the
    policies of this schema let a caller read every closing the caller may
    update, so the update is decided by the UPDATE policies alone. *)
Lemma closings_select_using c :
  using_ok closings_policies SELECT db caller c
  = is_uid caller (closing_professional_id c) || caller_is_super_admin db caller.
Proof.
  destruct caller as [u|]; cbn.
  - rewrite ?orb_false_r; reflexivity.
  - now rewrite super_admin_needs_session.
Qed.

Lemma closings_update_reads_visible_rows c :
  using_ok closings_policies UPDATE db caller c = true ->
  using_ok closings_policies SELECT db caller c = true.
Proof.
  rewrite closings_update_using, closings_select_using.
  destruct (is_uid caller (closing_professional_id c)),
           (caller_is_super_admin db caller); simpl; auto.
Qed.

(** No policy on transactions applies to DELETE or UPDATE. *)
Lemma transactions_no_delete t :
  using_ok transactions_policies DELETE db caller t = false.
Proof. destruct caller; reflexivity. Qed.

Lemma transactions_no_update t :
  using_ok transactions_policies UPDATE db caller t = false.
Proof. destruct caller; reflexivity. Qed.

Lemma delete_rows_transactions_noop where_ l :
  delete_rows transactions_policies db caller where_ l = l.
Proof.
  unfold delete_rows. induction l as [|t l IH]; [reflexivity|].
  cbn [filter]. rewrite transactions_no_delete, andb_false_r.
  cbn [negb]. now rewrite IH.
Qed.

(** A delete on transactions removes nothing and reports no error. *)
Lemma delete_transactions_noop where_ :
  delete_transactions db caller where_ = Ok db.
Proof.
  unfold delete_transactions.
  now rewrite delete_rows_transactions_noop, set_transactions_same.
Qed.

End PolicyFacts.

(** ** How one action changes the tables *)

(** Case analysis on the result of the store call in the goal. *)
Ltac on_insert f db1 E :=
  match goal with
  | |- context [f ?d ?c ?r] => destruct (f d c r) as [db1|?] eqn:E
  end.

Ltac on_update_closings db2 E :=
  match goal with
  | |- context [update_closings ?d ?c ?w ?s ?v] =>
      destruct (update_closings d c w s v) as [db2|?] eqn:E
  end.

Ltac on_update_appointments db2 E :=
  match goal with
  | |- context [update_appointments ?d ?c ?w ?st] =>
      destruct (update_appointments d c w st) as [db2|?] eqn:E
  end.

Section Changes.

Lemma insert_profile_tables db caller p db' :
  insert_profile db caller p = Ok db' ->
  appointments db' = appointments db
  /\ cash_register_closings db' = cash_register_closings db
  /\ cash_register_transactions db' = cash_register_transactions db.
Proof.
  unfold insert_profile, bind, require.
  repeat match goal with
         | |- context [if ?b then _ else _] => destruct b; [|discriminate]
         end.
  intros H; inversion H; subst; now destruct db.
Qed.

Lemma insert_transaction_tables db caller t db' :
  insert_transaction db caller t = Ok db' ->
  db' = set_transactions db (cash_register_transactions db ++ [t]).
Proof.
  unfold insert_transaction, bind, require.
  repeat match goal with
         | |- context [if ?b then _ else _] => destruct b; [|discriminate]
         end.
  now intros H; inversion H.
Qed.

Lemma insert_closing_inv db caller c db' :
  insert_closing db caller c = Ok db' ->
  db' = set_closings db (cash_register_closings db ++ [c])
  /\ day_taken db (closing_professional_id c) (closing_date c) = false.
Proof.
  unfold insert_closing, bind, require.
  destruct (numeric_10_2 (total_amount c)); [|discriminate].
  destruct (with_check_ok closings_policies INSERT db caller c); [|discriminate].
  destruct (has_closing db (closing_row_id c)); [discriminate|].
  destruct (day_taken db (closing_professional_id c) (closing_date c));
    [discriminate|].
  destruct (has_profile db (closing_professional_id c)); [|discriminate].
  simpl. intros H; inversion H; auto.
Qed.

Lemma insert_appointment_inv db caller a db' :
  insert_appointment db caller a = Ok db' ->
  db' = set_appointments db (appointments db ++ [a])
  /\ slot_taken db (professional_id a) (appointment_date a) (appointment_time a)
     = false.
Proof.
  unfold insert_appointment, bind, require.
  destruct (with_check_ok appointments_policies INSERT db caller a); [|discriminate].
  destruct (has_appointment db (appointment_row_id a)); [discriminate|].
  destruct (slot_taken db (professional_id a) (appointment_date a)
              (appointment_time a)); [discriminate|].
  destruct (has_patient db (patient_id a)); [|discriminate].
  destruct (has_procedure db (procedure_id a)); [|discriminate].
  destruct (has_profile db (professional_id a)); [|discriminate].
  destruct (opt_ref (has_profile db) (created_by a)); [|discriminate].
  simpl. intros H; inversion H; auto.
Qed.

Lemma update_closings_inv db caller where_ set valid db' :
  update_closings db caller where_ set valid = Ok db' ->
  db' = set_closings db
          (map (fun r => if where_ r && using_ok closings_policies UPDATE db caller r
                         then set r else r)
               (cash_register_closings db)).
Proof.
  unfold update_closings, bind.
  destruct (update_rows closings_policies "cash_register_closings" db caller
              where_ set valid (cash_register_closings db)) as [l|e] eqn:E;
    [|discriminate].
  intros H; inversion H. now rewrite (update_rows_shape _ _ _ _ _ _ _ _ _ E).
Qed.

Lemma update_appointments_inv db caller where_ set db' :
  update_appointments db caller where_ set = Ok db' ->
  db' = set_appointments db
          (map (fun r => if where_ r
                            && using_ok appointments_policies UPDATE db caller r
                         then set r else r)
               (appointments db)).
Proof.
  unfold update_appointments, bind.
  destruct (update_rows appointments_policies "appointments" db caller
              where_ set (fun _ => Ok tt) (appointments db)) as [l|e] eqn:E;
    [|discriminate].
  intros H; inversion H. now rewrite (update_rows_shape _ _ _ _ _ _ _ _ _ E).
Qed.

End Changes.

Section Steps.

Lemma signUp_tables db resp e n :
  let db' := fst (AuthProvider.signUp db resp e n) in
  appointments db' = appointments db
  /\ cash_register_closings db' = cash_register_closings db
  /\ cash_register_transactions db' = cash_register_transactions db.
Proof.
  unfold AuthProvider.signUp.
  destruct (AuthProvider.signUpError resp); [now simpl|].
  destruct (AuthProvider.auth_user resp) as [uid|]; [|now simpl].
  on_insert insert_profile db1 E; [|now simpl].
  simpl. exact (insert_profile_tables _ _ _ _ E).
Qed.

Lemma createClosing_closings db u today id :
  closings_change (cash_register_closings db)
    (cash_register_closings (fst (CashRegister.createClosing db u today id))).
Proof.
  unfold CashRegister.createClosing.
  destruct (maybeSingle _); [apply cc_same|].
  destruct u as [uid|]; [|apply cc_same].
  on_insert insert_closing db1 E; [|apply cc_same].
  destruct (insert_closing_inv _ _ _ _ E) as [-> Hfree].
  simpl. now apply cc_insert.
Qed.

Lemma handleSubmit_add_closings db u cid aid amt pm notes id :
  closings_change (cash_register_closings db)
    (cash_register_closings
       (fst (AddTransactionModal.handleSubmit db u cid aid amt pm notes id))).
Proof.
  unfold AddTransactionModal.handleSubmit.
  on_insert insert_transaction db1 E; [|apply cc_same].
  rewrite (insert_transaction_tables _ _ _ _ E).
  on_update_closings db2 E2; [|apply cc_same].
  rewrite (update_closings_inv _ _ _ _ _ _ E2). simpl. apply cc_total.
Qed.

Lemma updateTotal_closings db u closing txs :
  closings_change (cash_register_closings db)
    (cash_register_closings (TransactionsModal.updateTotal db u closing txs)).
Proof.
  unfold TransactionsModal.updateTotal.
  on_update_closings db2 E2; [|apply cc_same].
  rewrite (update_closings_inv _ _ _ _ _ _ E2). simpl. apply cc_total.
Qed.

Lemma deleteTransaction_closings db u closing txs confirmed tid :
  closings_change (cash_register_closings db)
    (cash_register_closings
       (fst (TransactionsModal.deleteTransaction db u closing txs confirmed tid))).
Proof.
  unfold TransactionsModal.deleteTransaction.
  destruct confirmed; [|apply cc_same]. simpl negb. cbv iota.
  rewrite delete_transactions_noop. simpl. apply updateTotal_closings.
Qed.

Lemma finalizeClosing_closings db u closing confirmed now :
  closings_change (cash_register_closings db)
    (cash_register_closings
       (fst (TransactionsModal.finalizeClosing db u closing confirmed now))).
Proof.
  unfold TransactionsModal.finalizeClosing.
  destruct confirmed; [|apply cc_same]. simpl negb. cbv iota.
  on_update_closings db2 E2; [|apply cc_same].
  rewrite (update_closings_inv _ _ _ _ _ _ E2). simpl. apply cc_finalized.
Qed.

Lemma handleSubmit_create_appointments db u f conflict id :
  let db' := fst (CreateAppointmentModal.handleSubmit db u f conflict id) in
  appointments_change (appointments db) (appointments db')
  /\ cash_register_closings db' = cash_register_closings db.
Proof.
  unfold CreateAppointmentModal.handleSubmit.
  destruct conflict; [split; [apply ac_same|reflexivity]|].
  on_insert insert_appointment db1 E; [|split; [apply ac_same|reflexivity]].
  destruct (insert_appointment_inv _ _ _ _ E) as [-> Hfree].
  simpl. split; [now apply ac_insert|reflexivity].
Qed.

Lemma updateStatus_appointments db u a s :
  let db' := fst (AppointmentDetailsModal.updateStatus db u a s) in
  appointments_change (appointments db) (appointments db')
  /\ cash_register_closings db' = cash_register_closings db.
Proof.
  unfold AppointmentDetailsModal.updateStatus.
  on_update_appointments db2 E2; [|split; [apply ac_same|reflexivity]].
  rewrite (update_appointments_inv _ _ _ _ _ E2). simpl.
  split; [apply ac_status|reflexivity].
Qed.

Lemma step_closings db db' :
  step db db' ->
  closings_change (cash_register_closings db) (cash_register_closings db').
Proof.
  intros H; destruct H.
  - destruct (signUp_tables db resp e n) as (_ & -> & _). apply cc_same.
  - apply createClosing_closings.
  - apply handleSubmit_add_closings.
  - apply deleteTransaction_closings.
  - apply finalizeClosing_closings.
  - destruct (handleSubmit_create_appointments db u f conflict id) as [_ ->].
    apply cc_same.
  - destruct (updateStatus_appointments db u a s) as [_ ->]. apply cc_same.
  - match goal with H : cash_register_closings _ = _ |- _ => rewrite H end.
    apply cc_same.
Qed.

Lemma createClosing_appointments db u today id :
  appointments (fst (CashRegister.createClosing db u today id)) = appointments db.
Proof.
  unfold CashRegister.createClosing.
  destruct (maybeSingle _); [reflexivity|].
  destruct u as [uid|]; [|reflexivity].
  on_insert insert_closing db1 E; [|reflexivity].
  now destruct (insert_closing_inv _ _ _ _ E) as [-> _].
Qed.

Lemma handleSubmit_add_appointments db u cid aid amt pm notes id :
  appointments (fst (AddTransactionModal.handleSubmit db u cid aid amt pm notes id))
  = appointments db.
Proof.
  unfold AddTransactionModal.handleSubmit.
  on_insert insert_transaction db1 E; [|reflexivity].
  rewrite (insert_transaction_tables _ _ _ _ E).
  on_update_closings db2 E2; [|reflexivity].
  now rewrite (update_closings_inv _ _ _ _ _ _ E2).
Qed.

Lemma updateTotal_appointments db u closing txs :
  appointments (TransactionsModal.updateTotal db u closing txs) = appointments db.
Proof.
  unfold TransactionsModal.updateTotal.
  on_update_closings db2 E2; [|reflexivity].
  now rewrite (update_closings_inv _ _ _ _ _ _ E2).
Qed.

Lemma deleteTransaction_appointments db u closing txs confirmed tid :
  appointments
    (fst (TransactionsModal.deleteTransaction db u closing txs confirmed tid))
  = appointments db.
Proof.
  unfold TransactionsModal.deleteTransaction.
  destruct confirmed; [|reflexivity]. simpl negb. cbv iota.
  rewrite delete_transactions_noop. simpl. apply updateTotal_appointments.
Qed.

Lemma finalizeClosing_appointments db u closing confirmed now :
  appointments
    (fst (TransactionsModal.finalizeClosing db u closing confirmed now))
  = appointments db.
Proof.
  unfold TransactionsModal.finalizeClosing.
  destruct confirmed; [|reflexivity]. simpl negb. cbv iota.
  on_update_closings db2 E2; [|reflexivity].
  now rewrite (update_closings_inv _ _ _ _ _ _ E2).
Qed.

Lemma step_appointments db db' :
  step db db' ->
  appointments_change (appointments db) (appointments db').
Proof.
  intros H; destruct H.
  - destruct (signUp_tables db resp e n) as (-> & _). apply ac_same.
  - rewrite createClosing_appointments. apply ac_same.
  - rewrite handleSubmit_add_appointments. apply ac_same.
  - rewrite deleteTransaction_appointments. apply ac_same.
  - rewrite finalizeClosing_appointments. apply ac_same.
  - now destruct (handleSubmit_create_appointments db u f conflict id).
  - now destruct (updateStatus_appointments db u a s).
  - match goal with H : appointments _ = _ |- _ => rewrite H end.
    apply ac_same.
Qed.

End Steps.

(** ** Invariants of the reachable stores *)

Section Invariants.

Lemma NoDup_snoc {A} (l : list A) (x : A) :
  NoDup l -> ~ In x l -> NoDup (l ++ [x]).
Proof.
  induction l as [|y l IH]; intros Hnd Hx; simpl.
  - constructor; [intros []|constructor].
  - inversion Hnd as [|? ? Hy Hl]; subst. constructor.
    + rewrite in_app_iff. intros [H|[H|[]]]; [now apply Hy|].
      subst. apply Hx. now left.
    + apply IH; [assumption|]. intros H. apply Hx. now right.
Qed.

Lemma slot_free_not_in a l :
  existsb (same_slot (professional_id a) (appointment_date a) (appointment_time a)) l
  = false ->
  ~ In (slot_key a) (map slot_key l).
Proof.
  intros Hfree Hin. apply in_map_iff in Hin as (b & Hkey & Hb).
  assert (existsb (same_slot (professional_id a) (appointment_date a)
                     (appointment_time a)) l = true) as Htaken.
  { apply existsb_exists. exists b. split; [assumption|].
    unfold slot_key in Hkey. inversion Hkey as [[H1 H2 H3]].
    unfold same_slot. now rewrite !String.eqb_refl. }
  congruence.
Qed.

Lemma day_free_not_in c l :
  existsb (same_day (closing_professional_id c) (closing_date c)) l = false ->
  ~ In (day_key c) (map day_key l).
Proof.
  intros Hfree Hin. apply in_map_iff in Hin as (b & Hkey & Hb).
  assert (existsb (same_day (closing_professional_id c) (closing_date c)) l = true)
    as Htaken.
  { apply existsb_exists. exists b. split; [assumption|].
    unfold day_key in Hkey. inversion Hkey as [[H1 H2]].
    unfold same_day. now rewrite !String.eqb_refl. }
  congruence.
Qed.

Lemma appointments_change_unique l l' :
  appointments_change l l' ->
  NoDup (map slot_key l) -> NoDup (map slot_key l').
Proof.
  intros [|a Hfree|h s] Hnd.
  - assumption.
  - rewrite map_app. simpl. apply NoDup_snoc; [assumption|].
    now apply slot_free_not_in.
  - rewrite map_map.
    erewrite map_ext; [exact Hnd|]. intros r. now destruct (h r).
Qed.

Lemma closings_change_unique l l' :
  closings_change l l' ->
  NoDup (map day_key l) -> NoDup (map day_key l').
Proof.
  intros [|c Hfree _ _|h z|h now] Hnd.
  - assumption.
  - rewrite map_app. simpl. apply NoDup_snoc; [assumption|].
    now apply day_free_not_in.
  - rewrite map_map.
    erewrite map_ext; [exact Hnd|]. intros r. now destruct (h r).
  - rewrite map_map.
    erewrite map_ext; [exact Hnd|]. intros r. now destruct (h r).
Qed.

Lemma steps_unique_slots db db' :
  steps db db' -> unique_slots db -> unique_slots db'.
Proof.
  induction 1 as [|db1 db2 db3 Hstep _ IH]; [auto|].
  intros H. apply IH.
  exact (appointments_change_unique _ _ (step_appointments _ _ Hstep) H).
Qed.

Lemma steps_unique_days db db' :
  steps db db' -> unique_days db -> unique_days db'.
Proof.
  induction 1 as [|db1 db2 db3 Hstep _ IH]; [auto|].
  intros H. apply IH.
  exact (closings_change_unique _ _ (step_closings _ _ Hstep) H).
Qed.

(** A finalized row stays in place, with its id, and stays finalized. *)
Lemma closings_change_keeps_finalized l l' n c :
  closings_change l l' ->
  nth_error l n = Some c -> is_finalized c = true ->
  exists c', nth_error l' n = Some c'
             /\ closing_row_id c' = closing_row_id c
             /\ is_finalized c' = true.
Proof.
  intros [|c0 _ _ _|h z|h now] Hn Hfin.
  - now exists c.
  - exists c. split; [|auto].
    rewrite nth_error_app1; [assumption|].
    apply nth_error_Some. congruence.
  - exists (if h c then TransactionsModal.set_total z c else c).
    split; [|now destruct (h c)].
    now rewrite nth_error_map, Hn.
  - exists (if h c then TransactionsModal.set_finalized now c else c).
    split; [|now destruct (h c)].
    now rewrite nth_error_map, Hn.
Qed.

Lemma steps_keep_finalized db db' :
  steps db db' ->
  forall n c,
    nth_error (cash_register_closings db) n = Some c -> is_finalized c = true ->
    exists c', nth_error (cash_register_closings db') n = Some c'
               /\ closing_row_id c' = closing_row_id c
               /\ is_finalized c' = true.
Proof.
  induction 1 as [db|db1 db2 db3 Hstep _ IH]; intros n c Hn Hfin.
  - now exists c.
  - destruct (closings_change_keeps_finalized _ _ n c
                (step_closings _ _ Hstep) Hn Hfin) as (c2 & Hn2 & Hid2 & Hfin2).
    destruct (IH n c2 Hn2 Hfin2) as (c3 & Hn3 & Hid3 & Hfin3).
    exists c3. repeat split; congruence.
Qed.

End Invariants.

(** ** Cash-register totals *)

Section Totals.

Lemma transactions_select_using db caller t :
  using_ok transactions_policies SELECT db caller t
  = owns_closing db caller (closing_id t) || caller_is_super_admin db caller.
Proof.
  destruct caller as [u|]; cbn.
  - rewrite ?orb_false_r; reflexivity.
  - rewrite super_admin_needs_session.
    unfold owns_closing.
    induction (cash_register_closings db); simpl; auto.
    now rewrite andb_false_r.
Qed.

(** What a successful add leaves in the store: the new row, and on every
    closing row the update reaches a total made of the rows read back,
    which already contain the new one, plus the new amount once more. *)
Lemma handleSubmit_add_double_counts db caller cid aid amt pm notes id db' :
  owns_closing db caller cid = true ->
  AddTransactionModal.handleSubmit db caller cid aid amt pm notes id = (db', Done) ->
  cash_register_transactions db'
  = (cash_register_transactions db
     ++ [ {| transaction_id := id; closing_id := cid;
             appointment_id := or_null aid; amount := amt;
             payment_method := pm; transaction_notes := or_null notes |} ])%list
  /\ cash_register_closings db'
     = map (fun c => if closing_hit db caller cid c
                     then TransactionsModal.set_total
                            (sum_amounts (closing_transactions db' cid) + amt) c
                     else c)
           (cash_register_closings db).
Proof.
  intros Hown. unfold AddTransactionModal.handleSubmit.
  on_insert insert_transaction db1 E; [|discriminate].
  pose proof (insert_transaction_tables _ _ _ _ E) as ->.
  on_update_closings db2 E2; [|discriminate].
  intros H; inversion H; subst db'; clear H.
  match type of E2 with
  | update_closings ?d _ _ _ _ = _ => set (db1 := d) in *
  end.
  pose proof (update_closings_inv _ _ _ _ _ _ E2) as Hdb2.
  assert (cash_register_transactions db2 = cash_register_transactions db1) as Htx
    by (rewrite Hdb2; reflexivity).
  assert (closing_transactions db2 cid
          = select_from transactions_policies db1 caller
              (fun t => String.eqb (closing_id t) cid)
              (cash_register_transactions db1)) as Hread.
  { unfold closing_transactions, select_from. rewrite Htx.
    apply filter_ext. intros t.
    destruct (String.eqb (closing_id t) cid) eqn:Ht; [|reflexivity].
    apply String.eqb_eq in Ht. rewrite transactions_select_using, Ht.
    change (owns_closing db1 caller cid) with (owns_closing db caller cid).
    now rewrite Hown. }
  split; [now rewrite Htx|].
  rewrite Hread, Hdb2.
  change (cash_register_closings (set_closings db1 ?l)) with l.
  change (cash_register_closings db1) with (cash_register_closings db).
  apply map_ext. intros c. unfold closing_hit.
  rewrite !closings_update_using. reflexivity.
Qed.

(** C1 (the code departs from the claim). Ana's open closing has no
    transaction; she adds one of 10.00. The add succeeds, the closing then
    holds exactly that transaction, whose amounts sum to 10.00, and the
    stored total_amount is 20.00: the rows read back after the insert already
    contain the new row and its amount is added a second time. *)
Lemma C1_add_counts_new_amount_twice :
  let r := AddTransactionModal.handleSubmit Sample.opened (Some "u-ana")
             "c-1" "" 1000 "Dinheiro" "" "t-1" in
  snd r = Done
  /\ closing_transactions (fst r) "c-1" = [Sample.t1]
  /\ sum_amounts (closing_transactions (fst r) "c-1") = 1000
  /\ stored_total (fst r) "c-1" = Some 2000.
Proof. vm_compute. repeat split. Qed.

(** C2 (the code departs from the claim). Ana's open closing holds t-1
    (10.00) and the newer t-2 (20.00); she deletes t-1. No row leaves the
    store, and the total written is 10.00: the sum of the loaded rows without
    the first loaded one (t-2), whatever row was asked for. The rows other
    than t-1 sum to 20.00 and the rows still stored to 30.00. *)
Lemma C2_delete_total_leaves_out_first_loaded_row :
  let closing := Sample.closing_of_ana 3000 false in
  let loaded := TransactionsModal.loadTransactions Sample.two_sales
                  (Some "u-ana") closing in
  let r := TransactionsModal.deleteTransaction Sample.two_sales (Some "u-ana")
             closing loaded true "t-1" in
  loaded = [Sample.t2; Sample.t1]
  /\ snd r = Done
  /\ closing_transactions (fst r) "c-1" = [Sample.t1; Sample.t2]
  /\ stored_total (fst r) "c-1" = Some 1000
  /\ sum_amounts (filter (fun t => negb (String.eqb (transaction_id t) "t-1"))
                         loaded) = 2000
  /\ sum_amounts (closing_transactions (fst r) "c-1") = 3000.
Proof. vm_compute. repeat split. Qed.

End Totals.

(** ** Signup roles *)

Section Signup.

Lemma profiles_select_with_session db uid p :
  using_ok profiles_policies SELECT db (Some uid) p = true.
Proof. reflexivity. Qed.

Lemma profiles_select_without_session db p :
  using_ok profiles_policies SELECT db None p = false.
Proof. reflexivity. Qed.

(** The count a request reads: every profile with a session, none without. *)
Lemma count_profiles_with_session db uid :
  AuthProvider.count_profiles db (Some uid) = List.length (profiles db).
Proof.
  unfold AuthProvider.count_profiles, select_from. f_equal.
  induction (profiles db) as [|p l IH]; [reflexivity|].
  cbn [filter]. rewrite profiles_select_with_session, IH. reflexivity.
Qed.

Lemma count_profiles_without_session db :
  AuthProvider.count_profiles db None = 0%nat.
Proof.
  unfold AuthProvider.count_profiles, select_from.
  induction (profiles db) as [|p l IH]; [reflexivity|].
  cbn [filter]. rewrite profiles_select_without_session.
  change (true && false) with false. cbv iota. exact IH.
Qed.

(** With a session the first profile becomes super_admin and a later one
    user. *)
Lemma signUp_with_session_role db uid e n db' :
  AuthProvider.signUp db (Sample.created uid true) e n = (db', Done) ->
  profiles db'
  = (profiles db
     ++ [ {| profile_id := uid; email := e; full_name := n;
             role := match profiles db with [] => super_admin | _ => user end;
             is_active := true |} ])%list.
Proof.
  unfold AuthProvider.signUp, AuthProvider.request_caller, Sample.created.
  cbn [AuthProvider.signUpError AuthProvider.auth_user AuthProvider.auth_session].
  rewrite count_profiles_with_session.
  on_insert insert_profile db1 E; [|discriminate].
  intros H; inversion H; subst db'; clear H.
  revert E. unfold insert_profile, bind, require.
  repeat match goal with
         | |- context [if ?b then _ else _] =>
             lazymatch b with
             | Nat.eqb _ _ => fail
             | _ => destruct b; [|discriminate]
             end
         end.
  intros H; inversion H. simpl. now destruct (profiles db).
Qed.

(** Without a session every profile a signup creates is a super_admin. *)
Lemma signUp_without_session_role db uid e n db' :
  AuthProvider.signUp db (Sample.created uid false) e n = (db', Done) ->
  profiles db'
  = (profiles db
     ++ [ {| profile_id := uid; email := e; full_name := n;
             role := super_admin; is_active := true |} ])%list.
Proof.
  unfold AuthProvider.signUp, AuthProvider.request_caller, Sample.created.
  cbn [AuthProvider.signUpError AuthProvider.auth_user AuthProvider.auth_session].
  rewrite count_profiles_without_session. cbn [Nat.eqb].
  on_insert insert_profile db1 E; [|discriminate].
  intros H; inversion H; subst db'; clear H.
  revert E. unfold insert_profile, bind, require.
  repeat match goal with
         | |- context [if ?b then _ else _] => destruct b; [|discriminate]
         end.
  intros H; inversion H. reflexivity.
Qed.

(** C9 (the code departs from the claim). The store already holds the first
    profile, a super_admin. A second person signs up and the authentication
    service creates the user without opening a session; the requests that
    follow carry the anon role. The count of profiles read by that request is
    0, because the only SELECT policy on profiles is for the authenticated
    role, so the new profile is inserted with role super_admin. *)
Lemma C9_second_signup_without_session_is_super_admin :
  let r := AuthProvider.signUp Sample.one_admin (Sample.created "u-new" false)
             "new@clinic" "New" in
  profiles Sample.one_admin = [Sample.adm]
  /\ AuthProvider.count_profiles Sample.one_admin None = 0%nat
  /\ snd r = Done
  /\ profiles (fst r)
     = [ Sample.adm;
         {| profile_id := "u-new"; email := "new@clinic"; full_name := "New";
            role := super_admin; is_active := true |} ].
Proof. vm_compute. repeat split. Qed.

End Signup.

(** ** Transactions of a closing under the policies *)

Section Finalized.

Lemma using_implies_check db caller c set :
  closing_professional_id (set c) = closing_professional_id c ->
  using_ok closings_policies UPDATE db caller c = true ->
  with_check_ok closings_policies UPDATE db caller (set c) = true.
Proof.
  intros Hset. rewrite closings_update_using, closings_update_check, Hset.
  destruct (is_uid caller (closing_professional_id c)),
           (caller_is_super_admin db caller); simpl; auto.
Qed.

(** The closings after [updateTotal], when the new total fits the column. *)
Lemma updateTotal_closings_shape db caller closing txs :
  numeric_10_2 (sum_amounts (TransactionsModal.without_first txs)) = true ->
  TransactionsModal.updateTotal db caller closing txs
  = set_closings db
      (map (fun c => if closing_hit db caller (closing_row_id closing) c
                     then TransactionsModal.set_total
                            (sum_amounts (TransactionsModal.without_first txs)) c
                     else c)
           (cash_register_closings db)).
Proof.
  intros Hfits. unfold TransactionsModal.updateTotal, update_closings.
  rewrite update_rows_succeeds.
  - reflexivity.
  - intros r _ Hhit. apply andb_prop in Hhit as [_ Husing]. split.
    + now apply using_implies_check.
    + unfold total_amount_fits. simpl. now rewrite Hfits.
Qed.

(** The policies on cash_register_transactions are for SELECT and INSERT
    only. A delete on that table therefore removes no row and reports no
    error, for every caller and every WHERE clause. deleteTransaction, once
    confirmed, reports success, leaves the transactions as they were and
    still writes a recomputed total_amount on the closing rows it may
    update: the sum of the rows it had loaded without the first of them.
    Only when the row asked for is that first one is this the sum of the
    loaded rows without the row asked for. *)
Theorem delete_leaves_transactions_in_place :
  (forall p, In p transactions_policies ->
             pol_cmd p = SELECT \/ pol_cmd p = INSERT)
  /\ (forall db caller where_, delete_transactions db caller where_ = Ok db)
  /\ (forall db caller closing txs tid,
        numeric_10_2 (sum_amounts (TransactionsModal.without_first txs)) = true ->
        let r := TransactionsModal.deleteTransaction db caller closing txs true tid in
        snd r = Done
        /\ cash_register_transactions (fst r) = cash_register_transactions db
        /\ cash_register_closings (fst r)
           = map (fun c => if closing_hit db caller (closing_row_id closing) c
                           then TransactionsModal.set_total
                                  (sum_amounts (TransactionsModal.without_first txs)) c
                           else c)
                 (cash_register_closings db)
        /\ (forall t0 rest, txs = t0 :: rest -> transaction_id t0 = tid ->
              TransactionsModal.without_first txs
              = filter (fun t => negb (String.eqb (transaction_id t) tid)) txs)).
Proof.
  split; [|split].
  - intros p Hp. simpl in Hp.
    destruct Hp as [<-|[<-|[<-|[<-|[]]]]]; simpl; auto.
  - intros. apply delete_transactions_noop.
  - intros db caller closing txs tid Hfits. cbv zeta.
    unfold TransactionsModal.deleteTransaction. simpl negb. cbv iota.
    rewrite delete_transactions_noop. cbn [fst snd].
    rewrite updateTotal_closings_shape by assumption.
    repeat split.
    intros t0 rest -> <-. reflexivity.
Qed.

(** At Ana's open closing with t-2 loaded first: deleting t-2 keeps both rows
    stored and writes 10.00, the sum without t-2. *)
Lemma delete_leaves_transactions_in_place_witness :
  numeric_10_2 (sum_amounts (TransactionsModal.without_first [Sample.t2; Sample.t1]))
  = true
  /\ cash_register_transactions
       (fst (TransactionsModal.deleteTransaction Sample.two_sales (Some "u-ana")
               (Sample.closing_of_ana 3000 false) [Sample.t2; Sample.t1] true "t-2"))
     = [Sample.t1; Sample.t2]
  /\ stored_total
       (fst (TransactionsModal.deleteTransaction Sample.two_sales (Some "u-ana")
               (Sample.closing_of_ana 3000 false) [Sample.t2; Sample.t1] true "t-2"))
       "c-1"
     = Some 1000.
Proof.
  split; [reflexivity|].
  destruct delete_leaves_transactions_in_place as (_ & _ & H).
  destruct (H Sample.two_sales (Some "u-ana") (Sample.closing_of_ana 3000 false)
              [Sample.t2; Sample.t1] "t-2" eq_refl) as (_ & Htx & Hcl & _).
  split; [exact Htx|].
  unfold stored_total. rewrite Hcl. reflexivity.
Defined.

(** C10 (the code departs from the claim). The policies on
    cash_register_transactions are two for SELECT and two for INSERT, and
    Ana's delete of t-1 from her open closing, which holds t-1 (10.00) and
    the newer t-2 (20.00), removes no row and reports no error, as the claim
    says. But the total then written is not the total as if t-1 were gone,
    20.00: it is 10.00, the sum of the loaded rows without the first loaded
    one, t-2. *)
Lemma C10_total_written_is_not_as_if_the_row_were_gone :
  let closing := Sample.closing_of_ana 3000 false in
  let loaded := TransactionsModal.loadTransactions Sample.two_sales
                  (Some "u-ana") closing in
  let r := TransactionsModal.deleteTransaction Sample.two_sales (Some "u-ana")
             closing loaded true "t-1" in
  map pol_cmd transactions_policies = [SELECT; SELECT; INSERT; INSERT]
  /\ delete_transactions Sample.two_sales (Some "u-ana")
       (fun t => String.eqb (transaction_id t) "t-1")
     = Ok Sample.two_sales
  /\ loaded = [Sample.t2; Sample.t1]
  /\ snd r = Done
  /\ cash_register_transactions (fst r) = [Sample.t1; Sample.t2]
  /\ sum_amounts (filter (fun t => negb (String.eqb (transaction_id t) "t-1"))
                         loaded) = 2000
  /\ stored_total (fst r) "c-1" = Some 1000.
Proof. vm_compute. repeat split. Qed.

End Finalized.

Section FinalizedClosings.

Lemma no_open_closing_to_own db caller cid :
  (forall c, In c (cash_register_closings db) ->
             closing_row_id c = cid -> is_finalized c = true) ->
  owns_open_closing db caller cid = false.
Proof.
  intros Hfin. unfold owns_open_closing.
  induction (cash_register_closings db) as [|c l IH]; [reflexivity|].
  cbn [existsb]. rewrite IH by (intros c' Hc'; apply Hfin; now right).
  rewrite orb_false_r.
  destruct (String.eqb (closing_row_id c) cid) eqn:Hid; [|reflexivity].
  apply String.eqb_eq in Hid.
  rewrite (Hfin c (or_introl eq_refl) Hid). now rewrite andb_false_r.
Qed.

(** C6 as stated fails for a super admin: on Ana's finalized closing, whose
    total_amount is 30.00, an add of 5.00 by the super admin is accepted by
    the insert policy for super admins, a third transaction is stored and
    total_amount is rewritten. *)
Lemma C6_super_admin_adds_to_finalized_closing :
  let r := AddTransactionModal.handleSubmit Sample.closed (Some "u-adm")
             "c-1" "" 500 "PIX" "" "t-3" in
  map is_finalized (cash_register_closings Sample.closed) = [true]
  /\ stored_total Sample.closed "c-1" = Some 3000
  /\ snd r = Done
  /\ List.length (cash_register_transactions (fst r)) = 3%nat
  /\ stored_total (fst r) "c-1" = Some 4000.
Proof. vm_compute. repeat split. Qed.

(** C6, amended. On a finalized closing, for every caller who is not a super
    admin: an add-transaction call is rejected by the store, by its insert
    policy when the amount fits the numeric(10, 2) column and as a numeric
    overflow when it does not, and a delete-transaction call removes no row
    (and reports no error); both leave the whole store, total_amount
    included, as it was. The modal offers neither action for a closing it
    shows as finalized. *)
Theorem C6_finalized_closing_is_frozen_for_non_admins :
  forall db caller cid,
    caller_is_super_admin db caller = false ->
    (forall c, In c (cash_register_closings db) ->
               closing_row_id c = cid -> is_finalized c = true) ->
    (forall aid amt pm notes id,
        AddTransactionModal.handleSubmit db caller cid aid amt pm notes id
        = (db, Failed (Storage
                         (if numeric_10_2 amt
                          then rls_violation "cash_register_transactions"
                          else numeric_field_overflow))))
    /\ (forall closing txs confirmed tid,
          closing_row_id closing = cid ->
          TransactionsModal.deleteTransaction db caller closing txs confirmed tid
          = (db, Done))
    /\ (forall closing,
          is_finalized closing = true ->
          TransactionsModal.offers_add closing = false
          /\ TransactionsModal.offers_delete closing = false).
Proof.
  intros db caller cid Hadmin Hfin. split; [|split].
  - intros. unfold AddTransactionModal.handleSubmit, insert_transaction.
    rewrite transactions_insert_check. cbn [closing_id amount].
    rewrite (no_open_closing_to_own _ _ _ Hfin), Hadmin.
    now destruct (numeric_10_2 amt).
  - intros closing txs confirmed tid Hid.
    unfold TransactionsModal.deleteTransaction.
    destruct confirmed; [|reflexivity]. simpl negb. cbv iota.
    rewrite delete_transactions_noop.
    unfold TransactionsModal.updateTotal, update_closings.
    rewrite update_rows_untouched.
    + simpl. now rewrite set_closings_same.
    + intros c Hc. rewrite closings_update_using, Hadmin, orb_false_r, Hid.
      destruct (String.eqb (closing_row_id c) cid) eqn:E; [|reflexivity].
      apply String.eqb_eq in E. rewrite (Hfin c Hc E).
      now rewrite andb_false_r.
  - intros closing H. unfold TransactionsModal.offers_add,
      TransactionsModal.offers_delete. now rewrite H.
Qed.

(** Ana on her own finalized closing: the add of 5.00 is refused by the
    policy, the add of 100,000,000.00 as an overflow, and the delete of t-1
    changes nothing. *)
Lemma C6_finalized_closing_is_frozen_for_non_admins_witness :
  AddTransactionModal.handleSubmit Sample.closed (Some "u-ana")
    "c-1" "" 500 "PIX" "" "t-3"
  = (Sample.closed, Failed (Storage (rls_violation "cash_register_transactions")))
  /\ AddTransactionModal.handleSubmit Sample.closed (Some "u-ana")
       "c-1" "" 10000000000 "PIX" "" "t-3"
     = (Sample.closed, Failed (Storage numeric_field_overflow))
  /\ TransactionsModal.deleteTransaction Sample.closed (Some "u-ana")
       (Sample.closing_of_ana 3000 true) [Sample.t2; Sample.t1] true "t-1"
     = (Sample.closed, Done).
Proof.
  assert (caller_is_super_admin Sample.closed (Some "u-ana") = false) as Hadmin
    by reflexivity.
  assert (forall c, In c (cash_register_closings Sample.closed) ->
                    closing_row_id c = "c-1" -> is_finalized c = true) as Hfin.
  { intros c [<-|[]] _. reflexivity. }
  destruct (C6_finalized_closing_is_frozen_for_non_admins
              Sample.closed (Some "u-ana") "c-1" Hadmin Hfin) as (Hadd & Hdel & _).
  split; [exact (Hadd "" 500 "PIX" "" "t-3")|].
  split; [exact (Hadd "" 10000000000 "PIX" "" "t-3")|]. now apply Hdel.
Defined.

End FinalizedClosings.

(** ** The lifecycle of a closing *)

Section Lifecycle.

(** A confirmed finalize never fails: it rewrites the closing rows with the
    given id that an UPDATE policy lets the caller reach. *)
Lemma finalizeClosing_shape db caller closing now :
  TransactionsModal.finalizeClosing db caller closing true now
  = (set_closings db
       (map (fun c => if closing_hit db caller (closing_row_id closing) c
                      then TransactionsModal.set_finalized now c else c)
            (cash_register_closings db)),
     Done).
Proof.
  unfold TransactionsModal.finalizeClosing, update_closings. simpl negb. cbv iota.
  rewrite update_rows_succeeds; [reflexivity|].
  intros r _ Hhit. apply andb_prop in Hhit as [_ Husing].
  split; [now apply using_implies_check|reflexivity].
Qed.

(** C8. Finalize, confirmed by the owner of an open closing or by a super
    admin, succeeds and turns the stored row into the same row with
    is_finalized = true and finalized_at stamped with the current time. And
    whatever actions follow, by whatever callers, a closing row that is
    finalized keeps its place and its id and is still finalized. *)
Theorem C8_finalize_is_one_way :
  (forall db caller closing now n c,
      nth_error (cash_register_closings db) n = Some c ->
      closing_row_id c = closing_row_id closing ->
      is_finalized c = false ->
      is_uid caller (closing_professional_id c) || caller_is_super_admin db caller
      = true ->
      let r := TransactionsModal.finalizeClosing db caller closing true now in
      snd r = Done
      /\ nth_error (cash_register_closings (fst r)) n
         = Some (TransactionsModal.set_finalized now c)
      /\ is_finalized (TransactionsModal.set_finalized now c) = true
      /\ finalized_at (TransactionsModal.set_finalized now c) = Some now)
  /\ (forall db db' n c,
        steps db db' ->
        nth_error (cash_register_closings db) n = Some c ->
        is_finalized c = true ->
        exists c', nth_error (cash_register_closings db') n = Some c'
                   /\ closing_row_id c' = closing_row_id c
                   /\ is_finalized c' = true).
Proof.
  split.
  - intros db caller closing now n c Hn Hid Hopen Hmay. cbv zeta.
    rewrite finalizeClosing_shape. cbn [fst snd].
    repeat split.
    change (cash_register_closings (set_closings db ?l)) with l.
    rewrite nth_error_map, Hn. cbn [option_map]. f_equal.
    unfold closing_hit. rewrite Hid, String.eqb_refl, closings_update_using, Hopen.
    cbn [negb andb]. rewrite andb_true_r, Hmay. reflexivity.
  - intros db db' n c Hsteps. now apply steps_keep_finalized.
Qed.

(** Ana finalizes her open closing; after the super admin then adds a
    transaction to it, the row is still finalized. *)
Lemma C8_finalize_is_one_way_witness :
  nth_error
    (cash_register_closings
       (fst (TransactionsModal.finalizeClosing Sample.two_sales (Some "u-ana")
               (Sample.closing_of_ana 3000 false) true "2024-01-10T18:00:00Z")))
    0
  = Some (Sample.closing_of_ana 3000 true)
  /\ exists c',
       nth_error
         (cash_register_closings
            (fst (AddTransactionModal.handleSubmit Sample.closed (Some "u-adm")
                    "c-1" "" 500 "PIX" "" "t-3")))
         0 = Some c'
       /\ closing_row_id c' = "c-1"
       /\ is_finalized c' = true.
Proof.
  destruct C8_finalize_is_one_way as [Hfin Hkeep]. split.
  - destruct (Hfin Sample.two_sales (Some "u-ana") (Sample.closing_of_ana 3000 false)
                "2024-01-10T18:00:00Z" 0%nat (Sample.closing_of_ana 3000 false)
                eq_refl eq_refl eq_refl eq_refl) as (_ & H & _).
    exact H.
  - apply (Hkeep Sample.closed _ 0%nat (Sample.closing_of_ana 3000 true)).
    + eapply steps_cons; [|apply steps_refl].
      apply (step_addTransaction Sample.closed (Some "u-adm")
               "c-1" "" 500 "PIX" "" "t-3").
    + reflexivity.
    + reflexivity.
Defined.

End Lifecycle.

(** ** One closing per professional and day *)

Section OneClosingPerDay.

Lemma same_day_key p d c : same_day p d c = true <-> day_key c = (p, d).
Proof.
  unfold same_day, day_key. rewrite andb_true_iff, !String.eqb_eq.
  split; [intros [-> ->]; reflexivity|intros H; inversion H; auto].
Qed.

(** The rows the pre-check of [createClosing] reads are the caller's rows
    of that day. *)
Lemma createClosing_precheck db uid today :
  select_from closings_policies db (Some uid)
    (fun c => is_uid (Some uid) (closing_professional_id c)
              && String.eqb (closing_date c) today)
    (cash_register_closings db)
  = filter (same_day uid today) (cash_register_closings db).
Proof.
  unfold select_from. apply filter_ext. intros c. unfold same_day.
  cbn. destruct (String.eqb (closing_professional_id c) uid),
               (String.eqb (closing_date c) today); reflexivity.
Qed.

Lemma filter_none {A} (f : A -> bool) l : existsb f l = false -> filter f l = [].
Proof.
  induction l as [|x l IH]; [reflexivity|]. simpl.
  destruct (f x); [discriminate|]. exact IH.
Qed.

Lemma filter_unique_day p d l :
  NoDup (map day_key l) -> existsb (same_day p d) l = true ->
  exists c, filter (same_day p d) l = [c].
Proof.
  induction l as [|x l IH]; [discriminate|].
  simpl. intros Hnd Hex. inversion Hnd as [|? ? Hx Hl]; subst.
  destruct (same_day p d x) eqn:Hxd.
  - exists x. f_equal. apply filter_none.
    destruct (existsb (same_day p d) l) eqn:E; [|reflexivity].
    exfalso. apply Hx. apply existsb_exists in E as (y & Hy & Hyd).
    apply same_day_key in Hxd. apply same_day_key in Hyd.
    rewrite Hxd, <- Hyd. now apply in_map.
  - apply IH; assumption.
Qed.

Lemma reachable_unique_days db : Reachable db -> unique_days db.
Proof.
  intros H. apply (steps_unique_days _ _ H). constructor.
Qed.

(** C7. In every reachable store no two closings share professional and
    date. createClosing, when the caller has no closing for the day, inserts
    one row for the caller and the day with total_amount = 0 and
    is_finalized = false, and every successful createClosing does exactly
    that. When the caller already has a closing for the day the call fails
    and the store is left as it was: nothing is inserted and the existing
    row is not touched; in a store where closings are unique per professional
    and day the failure is the client's own "already exists" refusal. *)
Theorem C7_one_closing_per_professional_and_day :
  (forall db, Reachable db -> unique_days db)
  /\ (forall db uid today id,
        day_taken db uid today = false ->
        has_closing db id = false ->
        has_profile db uid = true ->
        CashRegister.createClosing db (Some uid) today id
        = (set_closings db
             (cash_register_closings db
              ++ [ {| closing_row_id := id; closing_professional_id := uid;
                      closing_date := today; total_amount := 0;
                      closing_notes := None; is_finalized := false;
                      finalized_at := None |} ]),
           Done))
  /\ (forall db u today id db',
        CashRegister.createClosing db u today id = (db', Done) ->
        exists c,
          cash_register_closings db' = (cash_register_closings db ++ [c])%list
          /\ Some (closing_professional_id c) = u /\ closing_date c = today
          /\ total_amount c = 0 /\ is_finalized c = false)
  /\ (forall db uid today id,
        day_taken db uid today = true ->
        exists e, CashRegister.createClosing db (Some uid) today id
                  = (db, Failed e))
  /\ (forall db uid today id,
        unique_days db ->
        day_taken db uid today = true ->
        CashRegister.createClosing db (Some uid) today id
        = (db, Failed ClosingAlreadyExists)).
Proof.
  split; [exact reachable_unique_days|]. split; [|split; [|split]].
  - intros db uid today id Hfree Hid Hprof.
    unfold CashRegister.createClosing.
    rewrite createClosing_precheck, (filter_none _ _ Hfree). cbn [maybeSingle].
    unfold insert_closing.
    cbn [closing_row_id closing_professional_id closing_date total_amount].
    rewrite Hfree, Hid, Hprof.
    replace (with_check_ok closings_policies INSERT db (Some uid) _) with true;
      [reflexivity|].
    cbn. now rewrite String.eqb_refl.
  - intros db u today id db'. unfold CashRegister.createClosing.
    destruct (maybeSingle _); [discriminate|].
    destruct u as [uid|]; [|discriminate].
    on_insert insert_closing db1 E; [|discriminate].
    intros H; inversion H; subst db'; clear H.
    destruct (insert_closing_inv _ _ _ _ E) as [-> _].
    eexists. split; [reflexivity|]. repeat split.
  - intros db uid today id Htaken. unfold CashRegister.createClosing.
    destruct (maybeSingle _); [eexists; reflexivity|].
    unfold insert_closing, bind, require.
    cbn [closing_row_id closing_professional_id closing_date total_amount].
    rewrite Htaken.
    destruct (with_check_ok closings_policies INSERT db (Some uid) _);
      [|eexists; reflexivity].
    destruct (numeric_10_2 0); [|eexists; reflexivity].
    destruct (has_closing db id); eexists; reflexivity.
  - intros db uid today id Huniq Htaken. unfold CashRegister.createClosing.
    rewrite createClosing_precheck.
    destruct (filter_unique_day uid today _ Huniq Htaken) as [c ->].
    reflexivity.
Qed.

(** Ana opens 2024-01-11 while her closing of 2024-01-10 exists, and is
    refused when she asks for 2024-01-10 again. *)
Lemma C7_one_closing_per_professional_and_day_witness :
  cash_register_closings
    (fst (CashRegister.createClosing Sample.opened (Some "u-ana") "2024-01-11" "c-2"))
  = [ Sample.closing_of_ana 0 false;
      {| closing_row_id := "c-2"; closing_professional_id := "u-ana";
         closing_date := "2024-01-11"; total_amount := 0;
         closing_notes := None; is_finalized := false; finalized_at := None |} ]
  /\ CashRegister.createClosing Sample.opened (Some "u-ana") "2024-01-10" "c-2"
     = (Sample.opened, Failed ClosingAlreadyExists)
  /\ unique_days
       (fst (CashRegister.createClosing empty_db (Some "u-ana") "2024-01-10" "c-1")).
Proof.
  destruct C7_one_closing_per_professional_and_day
    as (Hreach & Hnew & _ & _ & Hdup).
  split; [|split].
  - rewrite (Hnew Sample.opened "u-ana" "2024-01-11" "c-2" eq_refl eq_refl eq_refl).
    reflexivity.
  - apply Hdup; [|reflexivity].
    repeat constructor. intros [].
  - apply Hreach. eapply steps_cons; [|apply steps_refl].
    apply step_createClosing.
Defined.

End OneClosingPerDay.

(** ** One appointment per slot *)

Section Slots.

Import CreateAppointmentModal.

Lemma existsb_none {A} (f : A -> bool) l :
  (forall x, In x l -> f x = false) -> existsb f l = false.
Proof.
  intros H. destruct (existsb f l) eqn:E; [|reflexivity].
  apply existsb_exists in E as (x & Hx & Hfx). rewrite (H x Hx) in Hfx.
  discriminate.
Qed.

Lemma same_slot_form f a :
  String.eqb (professional_id a) (professionalId f)
  && String.eqb (appointment_date a) (appointmentDate f)
  && String.eqb (appointment_time a) (appointmentTime f)
  = same_slot (professionalId f) (appointmentDate f) (appointmentTime f) a.
Proof. reflexivity. Qed.

(** The pre-check finds nothing when every row in the slot is cancelled. *)
Lemma checkConflict_ignores_cancelled db caller f :
  (forall a, In a (appointments db) ->
     same_slot (professionalId f) (appointmentDate f) (appointmentTime f) a = true ->
     status a = cancelled) ->
  checkConflict db caller f = false.
Proof.
  intros Hcancelled. unfold checkConflict, select_from.
  rewrite filter_none; [reflexivity|].
  apply existsb_none. intros a Ha. rewrite same_slot_form.
  destruct (same_slot _ _ _ a) eqn:Hslot; [|reflexivity].
  now rewrite (Hcancelled a Ha Hslot).
Qed.


(** A taken slot stops the insert, whoever asks. *)
Lemma insert_into_taken_slot db caller a :
  slot_taken db (professional_id a) (appointment_date a) (appointment_time a) = true ->
  exists e, insert_appointment db caller a = Err e.
Proof.
  intros Htaken. unfold insert_appointment, bind, require. rewrite Htaken.
  destruct (with_check_ok appointments_policies INSERT db caller a);
    [|eexists; reflexivity].
  destruct (has_appointment db (appointment_row_id a)); eexists; reflexivity.
Qed.

Lemma reachable_unique_slots db : Reachable db -> unique_slots db.
Proof.
  intros H. apply (steps_unique_slots _ _ H). constructor.
Qed.

End Slots.

Section SlotClaims.

Import CreateAppointmentModal.

(** C4. In every reachable store no two appointments share professional,
    date and time, whatever their status. In particular, when the only
    appointments in a slot are cancelled, the client's conflict check passes
    (it finds no conflict), and the insert that follows is refused and leaves
    the store as it was; for a caller the insert policy accepts, with a fresh
    row id, the refusal is the violation of the uniqueness constraint on
    (professional_id, appointment_date, appointment_time). *)
Theorem C4_one_appointment_per_slot_whatever_status :
  (forall db, Reachable db -> unique_slots db)
  /\ (forall db caller f id,
        slot_taken db (professionalId f) (appointmentDate f) (appointmentTime f)
        = true ->
        (forall a, In a (appointments db) ->
           same_slot (professionalId f) (appointmentDate f) (appointmentTime f) a
           = true ->
           status a = cancelled) ->
        checkConflict db caller f = false
        /\ (exists e,
              handleSubmit db caller f (checkConflict db caller f) id
              = (db, Failed (Storage e)))
        /\ (with_check_ok appointments_policies INSERT db caller
              (submitted_row caller f id) = true ->
            has_appointment db id = false ->
            handleSubmit db caller f (checkConflict db caller f) id
            = (db, Failed (Storage (unique_violation slot_constraint))))).
Proof.
  split; [exact reachable_unique_slots|].
  intros db caller f id Htaken Hcancelled.
  rewrite (checkConflict_ignores_cancelled _ _ _ Hcancelled).
  split; [reflexivity|]. unfold handleSubmit. split.
  - destruct (insert_into_taken_slot db caller (submitted_row caller f id) Htaken)
      as [e ->].
    now exists e.
  - intros Hpolicy Hfresh. unfold insert_appointment. rewrite Hpolicy.
    cbn [submitted_row appointment_row_id professional_id appointment_date
         appointment_time].
    now rewrite Hfresh, Htaken.
Qed.

(** Ana's 09:00 slot holds only a cancelled appointment; she books it again. *)
Lemma C4_one_appointment_per_slot_whatever_status_witness :
  checkConflict Sample.cancelled_slot (Some "u-ana") (Sample.form_for "pt-z" "u-ana")
  = false
  /\ handleSubmit Sample.cancelled_slot (Some "u-ana")
       (Sample.form_for "pt-z" "u-ana")
       (checkConflict Sample.cancelled_slot (Some "u-ana")
          (Sample.form_for "pt-z" "u-ana"))
       "a-2"
     = (Sample.cancelled_slot, Failed (Storage (unique_violation slot_constraint)))
  /\ unique_slots
       (fst (handleSubmit Sample.cancelled_slot (Some "u-ana")
               (Sample.form_for "pt-z" "u-ana") false "a-2")).
Proof.
  destruct C4_one_appointment_per_slot_whatever_status as [Hreach Hslot].
  assert (forall a, In a (appointments Sample.cancelled_slot) ->
            same_slot "u-ana" "2024-01-10" "09:00" a = true ->
            status a = cancelled) as Hcancelled.
  { intros a [<-|[]] _. reflexivity. }
  destruct (Hslot Sample.cancelled_slot (Some "u-ana")
              (Sample.form_for "pt-z" "u-ana") "a-2" eq_refl Hcancelled)
    as (Hcheck & _ & Hrefused).
  split; [exact Hcheck|]. split; [now apply Hrefused|].
  apply steps_unique_slots with (db := Sample.cancelled_slot).
  - eapply steps_cons; [|apply steps_refl]. apply step_createAppointment.
  - repeat constructor. intros [].
Defined.



End SlotClaims.

(** ** Status changes of an appointment *)

Section StatusChanges.

Import AppointmentDetailsModal.

(** The UPDATE policies on appointments: the professional, or a super admin. *)
Lemma appointments_update_using db caller a :
  using_ok appointments_policies UPDATE db caller a
  = is_uid caller (professional_id a) || caller_is_super_admin db caller.
Proof.
  destruct caller as [u|]; cbn.
  - rewrite ?orb_false_r; reflexivity.
  - now rewrite super_admin_needs_session.
Qed.

Lemma appointments_update_check db caller a :
  with_check_ok appointments_policies UPDATE db caller a
  = is_uid caller (professional_id a) || caller_is_super_admin db caller.
Proof.
  destruct caller as [u|]; cbn.
  - rewrite ?orb_false_r; reflexivity.
  - now rewrite super_admin_needs_session.
Qed.

(** A status update never fails: it rewrites the rows with the given id
    that an UPDATE policy lets the caller reach. *)
Lemma updateStatus_shape db caller appointment newStatus :
  updateStatus db caller appointment newStatus
  = (set_appointments db
       (map (fun a =>
               if String.eqb (appointment_row_id a) (appointment_row_id appointment)
                  && using_ok appointments_policies UPDATE db caller a
               then set_status newStatus a else a)
            (appointments db)),
     Done).
Proof.
  unfold updateStatus, update_appointments.
  rewrite update_rows_succeeds; [reflexivity|].
  intros r _ Hhit. apply andb_prop in Hhit as [_ Husing].
  split; [|reflexivity].
  rewrite appointments_update_check. cbn [set_status professional_id].
  now rewrite <- appointments_update_using.
Qed.

(** C5 as stated fails, in two ways. For Ana's scheduled appointment the
    modal renders the "Concluir" button, and her click on it stores
    completed, a status the rule does not list after scheduled. And the
    buttons are guarded by the appointment the modal was opened with: with
    a modal opened while the appointment was scheduled, her click on
    "Confirmar" moves the appointment the store holds as completed by then
    to confirmed, although the rule lists nothing after completed. *)
Lemma C5_transitions_outside_the_rule :
  let r := click Sample.booked (Some "u-ana") (Sample.ana_0900 scheduled) completed in
  let late := Sample.clinic [Sample.ana_0900 completed] [] [] in
  let r' := click late (Some "u-ana") (Sample.ana_0900 scheduled) confirmed in
  stored_status Sample.booked "a-1" = Some scheduled
  /\ shows_complete scheduled = true
  /\ snd r = Done
  /\ stored_status (fst r) "a-1" = Some completed
  /\ existsb (Status_eqb completed) (spec_valid_next scheduled) = false
  /\ stored_status late "a-1" = Some completed
  /\ snd r' = Done
  /\ stored_status (fst r') "a-1" = Some confirmed
  /\ spec_valid_next completed = [].
Proof. vm_compute. repeat split. Qed.

(** C5, amended. The status update of the details modal only performs
    these transitions, counted from the status of the appointment the modal
    was opened with (its buttons are guarded by that copy and the update
    does not read the stored status): from scheduled the only reachable
    next states are confirmed, completed and cancelled; from confirmed the
    only reachable next states are completed and cancelled; from completed
    or cancelled no transition is possible. A click leaves every stored row
    as it was or gives it the clicked status, the latter only on a row with
    the id of the modal's copy and for a status offered from the copy's
    status. When the modal's copy is the stored row, these are the
    transitions of the stored status, and the click of the professional or
    of a super admin on an offered status does store it. *)
Theorem C5_statuses_offered_by_the_modal :
  (forall s,
      offered s = match s with
                  | scheduled => [confirmed; completed; cancelled]
                  | confirmed => [completed; cancelled]
                  | completed => []
                  | cancelled => []
                  end)
  /\ (forall db caller shown t n stored,
        nth_error (appointments db) n = Some stored ->
        let r := click db caller shown t in
        snd r = Done
        /\ exists a',
             nth_error (appointments (fst r)) n = Some a'
             /\ (a' = stored
                 \/ (a' = set_status t stored
                     /\ appointment_row_id stored = appointment_row_id shown
                     /\ In t (offered (status shown)))))
  /\ (forall db caller shown t,
        status shown = completed \/ status shown = cancelled ->
        click db caller shown t = (db, Done))
  /\ (forall db caller n a t,
        nth_error (appointments db) n = Some a ->
        let r := click db caller a t in
        exists a',
          nth_error (appointments (fst r)) n = Some a'
          /\ (status a' = status a
              \/ (status a' = t /\ In t (offered (status a))))
          /\ (In t (offered (status a)) ->
              is_uid caller (professional_id a) || caller_is_super_admin db caller
              = true ->
              status a' = t)).
Proof.
  assert (forall db caller shown t n stored,
            nth_error (appointments db) n = Some stored ->
            snd (click db caller shown t) = Done
            /\ nth_error (appointments (fst (click db caller shown t))) n
               = Some (if existsb (Status_eqb t) (offered (status shown))
                          && String.eqb (appointment_row_id stored)
                                        (appointment_row_id shown)
                          && (is_uid caller (professional_id stored)
                              || caller_is_super_admin db caller)
                       then set_status t stored else stored)) as Hrow.
  { intros db caller shown t n stored Hn. unfold click.
    destruct (existsb (Status_eqb t) (offered (status shown))).
    - rewrite updateStatus_shape. cbn [fst snd andb]. split; [reflexivity|].
      change (appointments (set_appointments db ?l)) with l.
      rewrite nth_error_map, Hn. cbn [option_map].
      now rewrite appointments_update_using.
    - cbn [fst snd andb]. now split. }
  assert (forall t l, existsb (Status_eqb t) l = true <-> In t l) as Hmem.
  { intros t l. rewrite existsb_exists. split.
    - intros (x & Hx & E). destruct t, x; try discriminate; exact Hx.
    - intros Hin. exists t. split; [exact Hin|now destruct t]. }
  split; [intros []; reflexivity|]. split; [|split].
  - intros db caller shown t n stored Hn. cbv zeta.
    destruct (Hrow db caller shown t n stored Hn) as [Hdone Hnth].
    split; [exact Hdone|]. eexists. split; [exact Hnth|].
    destruct (existsb (Status_eqb t) (offered (status shown))) eqn:Hoff;
      [|now left].
    destruct (String.eqb (appointment_row_id stored) (appointment_row_id shown))
      eqn:Hid; [|now left].
    destruct (is_uid caller (professional_id stored)
              || caller_is_super_admin db caller); [|now left].
    right. split; [reflexivity|]. split; [now apply String.eqb_eq|].
    now apply Hmem.
  - intros db caller shown t Hterminal. unfold click.
    now destruct Hterminal as [-> | ->].
  - intros db caller n a t Hn. cbv zeta.
    destruct (Hrow db caller a t n a Hn) as [_ Hnth].
    eexists. split; [exact Hnth|]. rewrite String.eqb_refl, andb_true_r.
    destruct (existsb (Status_eqb t) (offered (status a))) eqn:Hoff.
    + apply Hmem in Hoff.
      destruct (is_uid caller (professional_id a) || caller_is_super_admin db caller);
        cbn [andb].
      * split; [right; now split|reflexivity].
      * split; [now left|discriminate].
    + cbn [andb]. split; [now left|].
      intros Hin _. apply Hmem in Hin. congruence.
Qed.

(** Ana confirms her scheduled appointment; on a completed one, with the
    modal showing it as completed, her click on "Cancelar" changes nothing;
    and a click from a modal opened on another appointment leaves hers
    alone. *)
Lemma C5_statuses_offered_by_the_modal_witness :
  (exists a',
     nth_error
       (appointments
          (fst (click Sample.booked (Some "u-ana") (Sample.ana_0900 scheduled)
                  confirmed)))
       0 = Some a'
     /\ status a' = confirmed)
  /\ click (Sample.clinic [Sample.ana_0900 completed] [] [])
       (Some "u-ana") (Sample.ana_0900 completed) cancelled
     = (Sample.clinic [Sample.ana_0900 completed] [] [], Done)
  /\ (exists a',
        nth_error
          (appointments
             (fst (click Sample.booked (Some "u-ana")
                     (Sample.ana_0900 completed) cancelled)))
          0 = Some a'
        /\ a' = Sample.ana_0900 scheduled).
Proof.
  destruct C5_statuses_offered_by_the_modal
    as (Hoffered & Hany & Hterminal & Hfresh).
  split; [|split].
  - destruct (Hfresh Sample.booked (Some "u-ana") 0%nat (Sample.ana_0900 scheduled)
                confirmed eq_refl) as (a' & Hn & _ & Hset).
    exists a'. split; [exact Hn|].
    apply Hset; [|reflexivity]. simpl. now left.
  - apply Hterminal. now left.
  - destruct (Hany Sample.booked (Some "u-ana") (Sample.ana_0900 completed)
                cancelled 0%nat (Sample.ana_0900 scheduled) eq_refl)
      as (_ & a' & Hn & [Hsame|(_ & _ & Hin)]).
    + exists a'. now split.
    + rewrite Hoffered in Hin. destruct Hin.
Defined.

End StatusChanges.

(** ** The session's profile *)

Section SessionProfile.

Import AuthContext.

Lemma not_in_keys_no_match {A} (key : A -> string) (k : string) (g : A -> bool) l :
  ~ In k (map key l) ->
  existsb (fun x => String.eqb (key x) k && g x) l = false.
Proof.
  intros Hk. apply existsb_none. intros x Hx.
  destruct (String.eqb (key x) k) eqn:E; [|reflexivity].
  apply String.eqb_eq in E. exfalso. apply Hk. rewrite <- E. now apply in_map.
Qed.

Lemma profile_read_with_session db uid userId l :
  filter (fun p => String.eqb (profile_id p) userId
                   && using_ok profiles_policies SELECT db (Some uid) p) l
  = filter (fun p => String.eqb (profile_id p) userId) l.
Proof.
  apply filter_ext. intros p. rewrite profiles_select_with_session.
  apply andb_true_r.
Qed.

(** The client's [isSuperAdmin], computed from the profile it loaded, is
    the super-admin test the policies make for the same session, in a store
    whose profile ids are unique. *)
Theorem isSuperAdmin_agrees_with_policies db uid :
  NoDup (map profile_id (profiles db)) ->
  isSuperAdmin (loadProfile db (Some uid) uid) = caller_is_super_admin db (Some uid).
Proof.
  unfold loadProfile, select_from, caller_is_super_admin.
  rewrite profile_read_with_session.
  induction (profiles db) as [|p l IH]; intros Hnd; [reflexivity|].
  inversion Hnd as [|? ? Hp Hl]; subst. cbn [filter existsb is_uid].
  destruct (String.eqb (profile_id p) uid) eqn:E.
  - apply String.eqb_eq in E. rewrite E in Hp.
    rewrite (not_in_keys_no_match profile_id uid _ l Hp), orb_false_r.
    rewrite filter_none; [reflexivity|].
    apply existsb_none. intros x Hx.
    destruct (String.eqb (profile_id x) uid) eqn:Ex; [|reflexivity].
    apply String.eqb_eq in Ex. exfalso. apply Hp. rewrite <- Ex.
    now apply in_map.
  - cbn [andb orb]. now apply IH.
Qed.

Lemma isSuperAdmin_agrees_with_policies_witness :
  isSuperAdmin (loadProfile (Sample.clinic [] [] []) (Some "u-adm") "u-adm") = true
  /\ isSuperAdmin (loadProfile (Sample.clinic [] [] []) (Some "u-ana") "u-ana") = false.
Proof.
  assert (NoDup (map profile_id (profiles (Sample.clinic [] [] [])))) as Hnd.
  { repeat constructor; simpl; intuition discriminate. }
  split.
  - now rewrite (isSuperAdmin_agrees_with_policies _ "u-adm" Hnd).
  - now rewrite (isSuperAdmin_agrees_with_policies _ "u-ana" Hnd).
Defined.

(** After a signup that succeeded, [loadProfile] under the session the
    signup left gives back the profile just written when a session was
    opened, with role super_admin exactly when it is the first profile, and
    gives no profile when none was. *)
Theorem signUp_then_loadProfile db resp e n db' uid :
  AuthProvider.auth_user resp = Some uid ->
  AuthProvider.signUp db resp e n = (db', Done) ->
  loadProfile db' (AuthProvider.request_caller resp uid) uid
  = if AuthProvider.auth_session resp
    then Some {| profile_id := uid; email := e; full_name := n;
                 role := match profiles db with [] => super_admin | _ => user end;
                 is_active := true |}
    else None.
Proof.
  intros Huser. unfold AuthProvider.signUp. rewrite Huser.
  destruct (AuthProvider.signUpError resp); [discriminate|].
  on_insert insert_profile db1 E; [|discriminate].
  intros H; inversion H; subst db'; clear H.
  revert E. unfold insert_profile, bind, require.
  destruct (with_check_ok profiles_policies INSERT db _ _); [|discriminate].
  cbn [profile_id email].
  destruct (has_profile db uid) eqn:Hfresh; [discriminate|].
  destruct (has_email db e); [discriminate|].
  cbn [negb]. intros H; inversion H; subst db1; clear H.
  unfold loadProfile, select_from. cbn [profiles set_profiles].
  rewrite filter_app, (filter_none _ (profiles db)).
  2:{ apply existsb_none. intros p Hp.
      destruct (String.eqb (profile_id p) uid) eqn:Ep; [|reflexivity].
      exfalso. unfold has_profile in Hfresh.
      assert (existsb (fun q => String.eqb (profile_id q) uid) (profiles db) = true)
        by (apply existsb_exists; now exists p).
      congruence. }
  unfold AuthProvider.request_caller.
  destruct (AuthProvider.auth_session resp); cbn [app filter profile_id].
  - rewrite String.eqb_refl, profiles_select_with_session. cbn [andb maybeSingle].
    rewrite count_profiles_with_session. now destruct (profiles db).
  - rewrite String.eqb_refl, profiles_select_without_session. reflexivity.
Qed.

Lemma signUp_then_loadProfile_witness :
  loadProfile
    (fst (AuthProvider.signUp empty_db (Sample.created "u-adm" true) "adm@clinic" "Adm"))
    (Some "u-adm") "u-adm"
  = Some Sample.adm.
Proof.
  apply (signUp_then_loadProfile empty_db (Sample.created "u-adm" true)
           "adm@clinic" "Adm" _ "u-adm"); reflexivity.
Defined.

End SessionProfile.

(** ** What the transactions modal shows *)

Section ShownTransactions.

Lemma fold_amounts_from l z :
  fold_left (fun sum t => sum + amount t) l z = z + sum_amounts l.
Proof.
  unfold sum_amounts. revert z. induction l as [|t l IH]; intros z;
    cbn [fold_left].
  - lia.
  - rewrite (IH (z + amount t)), (IH (0 + amount t)). lia.
Qed.

Lemma sum_amounts_app l1 l2 :
  sum_amounts (l1 ++ l2) = sum_amounts l1 + sum_amounts l2.
Proof.
  unfold sum_amounts at 1. rewrite fold_left_app, fold_amounts_from.
  reflexivity.
Qed.

Lemma sum_amounts_rev l : sum_amounts (rev l) = sum_amounts l.
Proof.
  induction l as [|t l IH]; [reflexivity|].
  simpl rev. rewrite sum_amounts_app, IH.
  change (t :: l) with ([t] ++ l)%list. rewrite sum_amounts_app. lia.
Qed.

(** The owner of a closing and a super admin are shown the stored
    transactions of that closing, all of them, newest first, and the total
    displayed over them is their exact sum; every other caller is shown
    none. *)
Theorem loadTransactions_shows_own_closing db caller closing :
  (owns_closing db caller (closing_row_id closing)
   || caller_is_super_admin db caller = true ->
   TransactionsModal.loadTransactions db caller closing
   = rev (closing_transactions db (closing_row_id closing))
   /\ CashRegisterPage.totalAmount
        (TransactionsModal.loadTransactions db caller closing)
      = sum_amounts (closing_transactions db (closing_row_id closing)))
  /\ (owns_closing db caller (closing_row_id closing)
      || caller_is_super_admin db caller = false ->
      TransactionsModal.loadTransactions db caller closing = []).
Proof.
  unfold TransactionsModal.loadTransactions, select_from, closing_transactions.
  split; intros Hsee.
  - assert (filter (fun t => String.eqb (closing_id t) (closing_row_id closing)
                             && using_ok transactions_policies SELECT db caller t)
                   (cash_register_transactions db)
            = filter (fun t => String.eqb (closing_id t) (closing_row_id closing))
                     (cash_register_transactions db)) as ->.
    { apply filter_ext. intros t.
      destruct (String.eqb (closing_id t) (closing_row_id closing)) eqn:E;
        [|reflexivity].
      apply String.eqb_eq in E.
      now rewrite transactions_select_using, E, Hsee. }
    split; [reflexivity|]. apply sum_amounts_rev.
  - rewrite filter_none; [reflexivity|].
    apply existsb_none. intros t _.
    destruct (String.eqb (closing_id t) (closing_row_id closing)) eqn:E;
      [|reflexivity].
    apply String.eqb_eq in E.
    now rewrite transactions_select_using, E, Hsee.
Qed.

Lemma loadTransactions_shows_own_closing_witness :
  CashRegisterPage.totalAmount
    (TransactionsModal.loadTransactions Sample.two_sales (Some "u-ana")
       (Sample.closing_of_ana 3000 false))
  = 3000
  /\ TransactionsModal.loadTransactions Sample.two_sales (Some "u-bia")
       (Sample.closing_of_ana 3000 false)
     = [].
Proof.
  split.
  - destruct (loadTransactions_shows_own_closing Sample.two_sales (Some "u-ana")
                (Sample.closing_of_ana 3000 false)) as [H _].
    destruct (H eq_refl) as [_ ->]. reflexivity.
  - destruct (loadTransactions_shows_own_closing Sample.two_sales (Some "u-bia")
                (Sample.closing_of_ana 3000 false)) as [_ H].
    now apply H.
Defined.

Lemma owns_closing_after_insert db l caller cid :
  owns_closing (set_transactions db l) caller cid = owns_closing db caller cid.
Proof. reflexivity. Qed.

Lemma update_rows_refused {R} (pols : list (Policy R)) name db caller
    (where_ : R -> bool) (set : R -> R) (valid : R -> Res unit) e tbl :
  (forall r, using_ok pols UPDATE db caller r = true ->
             with_check_ok pols UPDATE db caller (set r) = true) ->
  (forall r, valid (set r) = Err e) ->
  (exists r, In r tbl /\ where_ r && using_ok pols UPDATE db caller r = true) ->
  update_rows pols name db caller where_ set valid tbl = Err e.
Proof.
  intros Hcheck Hvalid. induction tbl as [|r rest IH]; intros (x & Hx & Hhit).
  - destruct Hx.
  - simpl. destruct (where_ r && using_ok pols UPDATE db caller r) eqn:Hr.
    + apply andb_prop in Hr as [_ Hu]. now rewrite (Hcheck r Hu), Hvalid.
    + destruct Hx as [->|Hx]; [congruence|].
      rewrite IH; [reflexivity|]. now exists x.
Qed.

(** The add is two writes, not one. When the new total does not fit the
    total_amount column, the owner's add reports the overflow, leaves
    total_amount as it was, and the transaction it inserted first stays in
    the store. The total it tried to write is the stored sum plus twice the
    new amount. *)
Theorem handleSubmit_add_keeps_row_when_total_overflows
    db uid cid amt pm id c :
  In c (cash_register_closings db) ->
  closing_row_id c = cid ->
  closing_professional_id c = uid ->
  is_finalized c = false ->
  has_transaction db id = false ->
  0 <= amt < 10000000000 ->
  10000000000 <= sum_amounts (closing_transactions db cid) + amt + amt ->
  AddTransactionModal.handleSubmit db (Some uid) cid "" amt pm "" id
  = (set_transactions db
       (cash_register_transactions db
        ++ [ {| transaction_id := id; closing_id := cid; appointment_id := None;
                amount := amt; payment_method := pm;
                transaction_notes := None |} ]),
     Failed (Storage numeric_field_overflow)).
Proof.
  intros Hc Hid Hprof Hopen Hfresh Hamt Hbig.
  assert (owns_open_closing db (Some uid) cid = true) as Hown_open.
  { apply existsb_exists. exists c. split; [assumption|].
    cbn [is_uid]. now rewrite Hid, Hprof, Hopen, !String.eqb_refl. }
  assert (owns_closing db (Some uid) cid = true) as Hown.
  { apply existsb_exists. exists c. split; [assumption|].
    cbn [is_uid]. now rewrite Hid, Hprof, !String.eqb_refl. }
  assert (has_closing db cid = true) as Hhas.
  { apply existsb_exists. exists c. split; [assumption|].
    now rewrite Hid, String.eqb_refl. }
  unfold AddTransactionModal.handleSubmit, insert_transaction.
  rewrite transactions_insert_check.
  cbn [closing_id amount transaction_id appointment_id or_null String.eqb].
  rewrite Hown_open, Hfresh, Hhas. cbn [orb negb opt_ref].
  replace (numeric_10_2 amt) with true
    by (symmetry; unfold numeric_10_2; apply Z.ltb_lt; lia).
  replace (0 <=? amt) with true by (symmetry; apply Z.leb_le; lia).
  cbn [bind require].
  unfold update_closings.
  rewrite (update_rows_refused _ _ _ _ _ _ _ numeric_field_overflow);
    [reflexivity| | |].
  - intros r Hr. now apply using_implies_check.
  - intros r. unfold total_amount_fits, require. cbn [total_amount TransactionsModal.set_total].
    match goal with
    | |- (if numeric_10_2 ?z then _ else _) = _ =>
        assert (z = sum_amounts (closing_transactions db cid) + amt + amt) as ->
    end.
    { f_equal. unfold select_from, closing_transactions.
      cbn [cash_register_transactions set_transactions].
      rewrite !filter_app, !sum_amounts_app. cbn [filter closing_id].
      rewrite String.eqb_refl, transactions_select_using. cbn [closing_id].
      rewrite owns_closing_after_insert, Hown. cbn [andb orb].
      change (sum_amounts [?t]) with (0 + amount t). cbn [amount Z.add].
      do 2 f_equal. apply filter_ext. intros t.
      destruct (String.eqb (closing_id t) cid) eqn:Et; [|reflexivity].
      apply String.eqb_eq in Et.
      now rewrite transactions_select_using, Et, owns_closing_after_insert, Hown. }
    replace (numeric_10_2 _) with false; [reflexivity|].
    symmetry. unfold numeric_10_2. apply Z.ltb_ge. lia.
  - exists c. split; [assumption|].
    rewrite closings_update_using. cbn [is_uid].
    now rewrite Hid, Hprof, Hopen, !String.eqb_refl.
Qed.

(** Ana adds 60,000,000.00 to her empty open closing. *)
Lemma handleSubmit_add_keeps_row_when_total_overflows_witness :
  let r := AddTransactionModal.handleSubmit Sample.opened (Some "u-ana")
             "c-1" "" 6000000000 "PIX" "" "t-9" in
  snd r = Failed (Storage numeric_field_overflow)
  /\ List.length (cash_register_transactions (fst r)) = 1%nat
  /\ stored_total (fst r) "c-1" = Some 0.
Proof.
  cbv zeta.
  rewrite (handleSubmit_add_keeps_row_when_total_overflows Sample.opened
             "u-ana" "c-1" 6000000000 "PIX" "t-9" (Sample.closing_of_ana 0 false));
    try reflexivity.
  - repeat split.
  - now left.
  - lia.
  - vm_compute. discriminate.
Defined.

End ShownTransactions.

(** ** Keys and references in the reachable stores *)

Section Keys.

Lemma grows_by_same {R} (key : R -> string) l : grows_by key l l.
Proof.
  exists (fun r => r), []. split; [reflexivity|].
  split; [|now left]. now rewrite map_id, app_nil_r.
Qed.

Lemma grows_by_map {R} (key : R -> string) (f : R -> R) l :
  (forall r, key (f r) = key r) -> grows_by key l (map f l).
Proof.
  intros Hf. exists f, []. split; [assumption|].
  split; [|now left]. now rewrite app_nil_r.
Qed.

Lemma grows_by_new {R} (key : R -> string) l r :
  ~ In (key r) (map key l) -> grows_by key l (l ++ [r]).
Proof.
  intros Hr. exists (fun r => r), [r]. split; [reflexivity|].
  split; [now rewrite map_id|]. right. now exists r.
Qed.

Lemma grows_by_keys {R} (key : R -> string) l l' :
  grows_by key l l' ->
  exists tail, map key l' = (map key l ++ map key tail)%list
               /\ (tail = [] \/ exists r, tail = [r] /\ ~ In (key r) (map key l)).
Proof.
  intros (f & tail & Hf & -> & Htail). exists tail. split; [|assumption].
  rewrite map_app, map_map. f_equal. apply map_ext. exact Hf.
Qed.

Lemma grows_by_NoDup {R} (key : R -> string) l l' :
  grows_by key l l' -> NoDup (map key l) -> NoDup (map key l').
Proof.
  intros H Hnd. destruct (grows_by_keys _ _ _ H) as (tail & -> & [->|(r & -> & Hr)]).
  - now rewrite app_nil_r.
  - now apply NoDup_snoc.
Qed.

Lemma grows_by_keeps {R} (key : R -> string) l l' k :
  grows_by key l l' -> In k (map key l) -> In k (map key l').
Proof.
  intros H Hk. destruct (grows_by_keys _ _ _ H) as (tail & -> & _).
  apply in_or_app. now left.
Qed.

Lemma has_key_iff {R} (key : R -> string) l id :
  existsb (fun r => String.eqb (key r) id) l = true <-> In id (map key l).
Proof.
  rewrite existsb_exists, in_map_iff. split.
  - intros (r & Hr & E). apply String.eqb_eq in E. now exists r.
  - intros (r & E & Hr). exists r. split; [assumption|]. now apply String.eqb_eq.
Qed.

Lemma fresh_key {R} (key : R -> string) l id :
  existsb (fun r => String.eqb (key r) id) l = false -> ~ In id (map key l).
Proof.
  intros Hf Hin. apply has_key_iff in Hin. congruence.
Qed.

Lemma set_total_keeps_id z c :
  closing_row_id (TransactionsModal.set_total z c) = closing_row_id c.
Proof. reflexivity. Qed.

Lemma update_closings_grows db caller where_ set valid db' :
  (forall c, closing_row_id (set c) = closing_row_id c) ->
  update_closings db caller where_ set valid = Ok db' ->
  appointments db' = appointments db
  /\ grows_by closing_row_id (cash_register_closings db) (cash_register_closings db')
  /\ cash_register_transactions db' = cash_register_transactions db.
Proof.
  intros Hset H. rewrite (update_closings_inv _ _ _ _ _ _ H).
  split; [reflexivity|]. split; [|reflexivity].
  apply grows_by_map. intros c. now destruct (_ && _).
Qed.

Lemma keeps_keys_same db db' :
  appointments db' = appointments db ->
  cash_register_closings db' = cash_register_closings db ->
  cash_register_transactions db' = cash_register_transactions db ->
  keeps_keys db db'.
Proof.
  unfold keeps_keys. intros -> -> ->.
  repeat split; try apply grows_by_same. now left.
Qed.

Lemma keeps_keys_closings db db' :
  appointments db' = appointments db
  /\ grows_by closing_row_id (cash_register_closings db) (cash_register_closings db')
  /\ cash_register_transactions db' = cash_register_transactions db ->
  keeps_keys db db'.
Proof.
  unfold keeps_keys. intros (-> & H & ->).
  repeat split; [apply grows_by_same|exact H|now left].
Qed.

Lemma updateTotal_keeps_keys db u closing txs :
  keeps_keys db (TransactionsModal.updateTotal db u closing txs).
Proof.
  unfold TransactionsModal.updateTotal.
  on_update_closings db2 E; [|now apply keeps_keys_same].
  apply keeps_keys_closings.
  exact (update_closings_grows _ _ _ _ _ _ (set_total_keeps_id _) E).
Qed.

Lemma insert_transaction_checks db caller t db' :
  insert_transaction db caller t = Ok db' ->
  has_transaction db (transaction_id t) = false
  /\ has_closing db (closing_id t) = true
  /\ opt_ref (has_appointment db) (appointment_id t) = true
  /\ 0 <= amount t < 10000000000.
Proof.
  unfold insert_transaction, bind, require.
  destruct (numeric_10_2 (amount t)) eqn:Hfit; [|discriminate].
  destruct (with_check_ok transactions_policies INSERT db caller t); [|discriminate].
  destruct (0 <=? amount t) eqn:Hpos; [|discriminate].
  destruct (has_transaction db (transaction_id t)); [discriminate|].
  destruct (has_closing db (closing_id t)); [|discriminate].
  destruct (opt_ref (has_appointment db) (appointment_id t)); [|discriminate].
  intros _. repeat split; try reflexivity.
  - now apply Z.leb_le.
  - unfold numeric_10_2 in Hfit. apply Z.ltb_lt in Hfit. lia.
Qed.

Lemma step_keeps_keys db db' : step db db' -> keeps_keys db db'.
Proof.
  intros H; destruct H.
  - destruct (signUp_tables db resp e n) as (H1 & H2 & H3).
    now apply keeps_keys_same.
  - unfold CashRegister.createClosing.
    destruct (maybeSingle _); [now apply keeps_keys_same|].
    destruct u as [uid|]; [|now apply keeps_keys_same].
    on_insert insert_closing db1 E; [|now apply keeps_keys_same].
    destruct (insert_closing_inv _ _ _ _ E) as [-> _].
    apply keeps_keys_closings. repeat split. apply grows_by_new.
    apply fresh_key. revert E. unfold insert_closing, bind, require.
    destruct (numeric_10_2 _); [|discriminate].
    destruct (with_check_ok _ _ _ _ _); [|discriminate].
    cbn [closing_row_id]. unfold has_closing.
    now destruct (existsb _ (cash_register_closings db)).
  - unfold AddTransactionModal.handleSubmit.
    on_insert insert_transaction db1 E; [|now apply keeps_keys_same].
    pose proof (insert_transaction_checks _ _ _ _ E) as Hchecks.
    pose proof (insert_transaction_tables _ _ _ _ E) as ->.
    on_update_closings db2 E2; cbn [fst].
    + destruct (update_closings_grows _ _ _ _ _ _ (set_total_keeps_id _) E2)
        as (Ha & Hc & Ht).
      split; [rewrite Ha; apply grows_by_same|]. split; [exact Hc|].
      right. eexists. split; [rewrite Ht; reflexivity|exact Hchecks].
    + split; [apply grows_by_same|]. split; [apply grows_by_same|].
      right. eexists. split; [reflexivity|exact Hchecks].
  - unfold TransactionsModal.deleteTransaction.
    match goal with |- context [negb ?b] => destruct b end; simpl negb; cbv iota;
      [|apply keeps_keys_same; reflexivity].
    rewrite delete_transactions_noop. apply updateTotal_keeps_keys.
  - unfold TransactionsModal.finalizeClosing.
    match goal with |- context [negb ?b] => destruct b end; simpl negb; cbv iota;
      [|apply keeps_keys_same; reflexivity].
    on_update_closings db2 E; [|now apply keeps_keys_same].
    apply keeps_keys_closings.
    exact (update_closings_grows _ _ _ (TransactionsModal.set_finalized _) _ _
             (fun c => eq_refl) E).
  - unfold CreateAppointmentModal.handleSubmit.
    destruct conflict; [now apply keeps_keys_same|].
    on_insert insert_appointment db1 E; [|now apply keeps_keys_same].
    destruct (insert_appointment_inv _ _ _ _ E) as [-> _].
    split; [|split; [apply grows_by_same|now left]].
    apply grows_by_new. apply fresh_key.
    revert E. unfold insert_appointment, bind, require.
    destruct (with_check_ok _ _ _ _ _); [|discriminate].
    unfold has_appointment.
    now destruct (existsb _ (appointments db)).
  - unfold AppointmentDetailsModal.updateStatus.
    on_update_appointments db2 E; [|now apply keeps_keys_same].
    rewrite (update_appointments_inv _ _ _ _ _ E).
    split; [|split; [apply grows_by_same|now left]].
    apply grows_by_map. intros a0. now destruct (_ && _).
  - now apply keeps_keys_same.
Qed.

(** In every store the client's writes can reach, appointment ids, closing
    ids and transaction ids are each unique. *)
Theorem reachable_primary_keys db : Reachable db -> primary_keys_hold db.
Proof.
  unfold Reachable.
  assert (forall a b, steps a b -> primary_keys_hold a -> primary_keys_hold b) as H.
  { induction 1 as [|db1 db2 db3 Hstep _ IH]; [auto|]. intros (Ha & Hc & Ht).
    apply IH. destruct (step_keeps_keys _ _ Hstep) as (Ga & Gc & Gt).
    split; [exact (grows_by_NoDup _ _ _ Ga Ha)|].
    split; [exact (grows_by_NoDup _ _ _ Gc Hc)|].
    destruct Gt as [->|(t & -> & Hfresh & _)]; [assumption|].
    rewrite map_app. apply NoDup_snoc; [assumption|]. now apply fresh_key. }
  intros Hr. apply (H _ _ Hr). repeat split; constructor.
Qed.

(** In every store the client's writes can reach, each transaction belongs
    to a closing that exists, names an appointment that exists when it names
    one, and has an amount from 0 up to the column's bound. *)
Theorem reachable_transactions_well_formed db :
  Reachable db -> transactions_well_formed db.
Proof.
  unfold Reachable.
  assert (forall a b, steps a b ->
            transactions_well_formed a -> transactions_well_formed b) as H.
  { induction 1 as [|db1 db2 db3 Hstep _ IH]; [auto|]. intros Hwf.
    apply IH. destruct (step_keeps_keys _ _ Hstep) as (Ga & Gc & Gt).
    assert (forall id, has_closing db1 id = true -> has_closing db2 id = true) as Kc.
    { intros id Hid. apply has_key_iff. apply (grows_by_keeps _ _ _ _ Gc).
      now apply has_key_iff. }
    assert (forall o, opt_ref (has_appointment db1) o = true ->
                      opt_ref (has_appointment db2) o = true) as Ka.
    { intros [id|] Hid; [|reflexivity]. apply has_key_iff.
      apply (grows_by_keeps _ _ _ _ Ga). now apply has_key_iff. }
    intros t Ht.
    destruct Gt as [Gt|(t' & Gt & _ & Hc' & Ha' & Hamt)]; rewrite Gt in Ht.
    - destruct (Hwf t Ht) as (H1 & H2 & H3). auto.
    - apply in_app_or in Ht as [Ht|[<-|[]]].
      + destruct (Hwf t Ht) as (H1 & H2 & H3). auto.
      + auto. }
  intros Hr. apply (H _ _ Hr). intros t [].
Qed.

End Keys.

Section KeysWitnesses.

Lemma sample_day_reachable :
  Reachable
    (fst (AddTransactionModal.handleSubmit
            (fst (CashRegister.createClosing (Sample.clinic [] [] [])
                    (Some "u-ana") "2024-01-10" "c-1"))
            (Some "u-ana") "c-1" "" 1000 "Dinheiro" "" "t-1")).
Proof.
  unfold Reachable.
  apply steps_cons with (db2 := Sample.clinic [] [] []);
    [apply step_other; reflexivity|].
  eapply steps_cons; [apply step_createClosing|].
  eapply steps_cons; [apply step_addTransaction|].
  apply steps_refl.
Qed.

Lemma reachable_primary_keys_witness :
  primary_keys_hold
    (fst (AddTransactionModal.handleSubmit
            (fst (CashRegister.createClosing (Sample.clinic [] [] [])
                    (Some "u-ana") "2024-01-10" "c-1"))
            (Some "u-ana") "c-1" "" 1000 "Dinheiro" "" "t-1")).
Proof. apply reachable_primary_keys. exact sample_day_reachable. Defined.

Lemma reachable_transactions_well_formed_witness :
  transactions_well_formed
    (fst (AddTransactionModal.handleSubmit
            (fst (CashRegister.createClosing (Sample.clinic [] [] [])
                    (Some "u-ana") "2024-01-10" "c-1"))
            (Some "u-ana") "c-1" "" 1000 "Dinheiro" "" "t-1")).
Proof. apply reachable_transactions_well_formed. exact sample_day_reachable. Defined.

End KeysWitnesses.

(** ** Booking: the pre-check and the policies *)

Section Booking.

Import CreateAppointmentModal.

(** The conflict check never asks for more than the store does: whenever
    it reports a conflict, for whatever caller, the slot is taken in the
    store and the insert of the submitted row would be refused as well. *)
Theorem checkConflict_implies_slot_taken db caller f :
  checkConflict db caller f = true ->
  slot_taken db (professionalId f) (appointmentDate f) (appointmentTime f) = true
  /\ forall id, exists e,
       insert_appointment db caller (submitted_row caller f id) = Err e.
Proof.
  intros Hconflict.
  assert (slot_taken db (professionalId f) (appointmentDate f) (appointmentTime f)
          = true) as Htaken.
  { unfold checkConflict, select_from in Hconflict.
    match type of Hconflict with
    | context [filter ?p ?l] => destruct (filter p l) as [|a rest] eqn:E
    end; [discriminate|].
    assert (In a (a :: rest)) as Ha by now left.
    rewrite <- E in Ha. apply filter_In in Ha as [Ha Hp].
    apply existsb_exists. exists a. split; [assumption|].
    rewrite same_slot_form in Hp.
    apply andb_prop in Hp as [Hp _]. now apply andb_prop in Hp as [Hp _]. }
  split; [exact Htaken|]. intros id.
  exact (insert_into_taken_slot db caller (submitted_row caller f id) Htaken).
Qed.

Lemma checkConflict_implies_slot_taken_witness :
  slot_taken Sample.booked "u-ana" "2024-01-10" "09:00" = true.
Proof.
  apply (checkConflict_implies_slot_taken Sample.booked (Some "u-ana")
           (Sample.form_for "pt-z" "u-ana")).
  reflexivity.
Defined.

(** The INSERT policies on appointments: one's own agenda, created by
    oneself, or a super admin. *)
Lemma appointments_insert_check db caller a :
  with_check_ok appointments_policies INSERT db caller a
  = (is_uid caller (professional_id a)
     && match created_by a with Some cb => is_uid caller cb | None => false end)
    || caller_is_super_admin db caller.
Proof.
  destruct caller as [u|]; cbn.
  - rewrite ?orb_false_r; reflexivity.
  - now rewrite super_admin_needs_session.
Qed.

(** A caller who is not a super admin cannot book on another professional's
    agenda: the submit is refused by the insert policy and the store is left
    as it was. *)
Theorem handleSubmit_refuses_foreign_agenda db caller f id :
  caller_is_super_admin db caller = false ->
  is_uid caller (professionalId f) = false ->
  handleSubmit db caller f false id
  = (db, Failed (Storage (rls_violation "appointments"))).
Proof.
  intros Hadmin Hother. unfold handleSubmit, insert_appointment.
  rewrite appointments_insert_check. cbn [submitted_row professional_id].
  now rewrite Hother, Hadmin.
Qed.

Lemma handleSubmit_refuses_foreign_agenda_witness :
  handleSubmit (Sample.clinic [] [] []) (Some "u-bia")
    (Sample.form_for "pt-x" "u-ana") false "a-1"
  = (Sample.clinic [] [] [], Failed (Storage (rls_violation "appointments"))).
Proof.
  apply handleSubmit_refuses_foreign_agenda; reflexivity.
Defined.

End Booking.

(** ** Status updates: who and from what *)

Section StatusWrites.

Import AppointmentDetailsModal.

(** A status update by a caller who is neither the professional of the
    appointment nor a super admin changes nothing, and reports success. *)
Theorem updateStatus_by_stranger_is_silent db caller appointment newStatus :
  caller_is_super_admin db caller = false ->
  (forall a, In a (appointments db) ->
     appointment_row_id a = appointment_row_id appointment ->
     is_uid caller (professional_id a) = false) ->
  updateStatus db caller appointment newStatus = (db, Done).
Proof.
  intros Hadmin Hother. unfold updateStatus, update_appointments.
  rewrite update_rows_untouched.
  - simpl. now rewrite set_appointments_same.
  - intros a Ha. rewrite appointments_update_using, Hadmin, orb_false_r.
    destruct (String.eqb (appointment_row_id a) (appointment_row_id appointment))
      eqn:E; [|reflexivity].
    apply String.eqb_eq in E. now rewrite (Hother a Ha E).
Qed.

Lemma updateStatus_by_stranger_is_silent_witness :
  updateStatus Sample.booked (Some "u-bia") (Sample.ana_0900 scheduled) cancelled
  = (Sample.booked, Done).
Proof.
  apply updateStatus_by_stranger_is_silent; [reflexivity|].
  intros a [<-|[]] _. reflexivity.
Defined.

(** Which buttons a click may use is decided by the status the modal was
    opened with, and the write does not look at the stored status: for the
    professional or a super admin, a click the modal offers stores the
    clicked status on the row with that id, whatever status the store
    holds by then. *)
Theorem click_overwrites_stored_status db caller n stored shown t :
  nth_error (appointments db) n = Some stored ->
  appointment_row_id shown = appointment_row_id stored ->
  In t (offered (status shown)) ->
  is_uid caller (professional_id stored) || caller_is_super_admin db caller = true ->
  nth_error (appointments (fst (click db caller shown t))) n
  = Some (set_status t stored).
Proof.
  intros Hn Hid Hoffered Hmay. unfold click.
  assert (existsb (Status_eqb t) (offered (status shown)) = true) as ->.
  { apply existsb_exists. exists t. split; [assumption|now destruct t]. }
  rewrite updateStatus_shape. cbn [fst].
  change (appointments (set_appointments db ?l)) with l.
  rewrite nth_error_map, Hn. cbn [option_map].
  now rewrite Hid, String.eqb_refl, appointments_update_using, Hmay.
Qed.

(** The modal was opened on Ana's appointment while scheduled; the store
    holds it as completed by now; her click on "Confirmar" stores confirmed. *)
Lemma click_overwrites_stored_status_witness :
  nth_error
    (appointments
       (fst (click (Sample.clinic [Sample.ana_0900 completed] [] [])
               (Some "u-ana") (Sample.ana_0900 scheduled) confirmed)))
    0
  = Some (Sample.ana_0900 confirmed).
Proof.
  apply (click_overwrites_stored_status
           (Sample.clinic [Sample.ana_0900 completed] [] [])
           (Some "u-ana") 0%nat (Sample.ana_0900 completed)
           (Sample.ana_0900 scheduled) confirmed);
    try reflexivity.
  simpl. now left.
Defined.

End StatusWrites.

(** ** Closings: composing the operations *)

Section ClosingSequences.

(** A finalize that no UPDATE policy admits writes nothing and reports
    success: by a caller who is not a super admin, on a closing that is not
    the caller's or is already finalized. The first finalized_at is kept. *)
Theorem finalizeClosing_without_effect db caller closing confirmed now_ :
  caller_is_super_admin db caller = false ->
  (forall c, In c (cash_register_closings db) ->
     closing_row_id c = closing_row_id closing ->
     is_uid caller (closing_professional_id c) = false \/ is_finalized c = true) ->
  TransactionsModal.finalizeClosing db caller closing confirmed now_ = (db, Done).
Proof.
  intros Hadmin Hnot. unfold TransactionsModal.finalizeClosing.
  destruct (negb confirmed); [reflexivity|].
  unfold update_closings. rewrite update_rows_untouched.
  - simpl. now rewrite set_closings_same.
  - intros c Hc. rewrite closings_update_using, Hadmin, orb_false_r.
    destruct (String.eqb (closing_row_id c) (closing_row_id closing)) eqn:E;
      [|reflexivity].
    apply String.eqb_eq in E.
    destruct (Hnot c Hc E) as [-> | ->]; [reflexivity|apply andb_false_r].
Qed.

Lemma finalizeClosing_without_effect_witness :
  TransactionsModal.finalizeClosing Sample.closed (Some "u-ana")
    (Sample.closing_of_ana 3000 true) true "2024-01-11T09:00:00Z"
  = (Sample.closed, Done)
  /\ TransactionsModal.finalizeClosing Sample.two_sales (Some "u-bia")
       (Sample.closing_of_ana 3000 false) true "2024-01-11T09:00:00Z"
     = (Sample.two_sales, Done).
Proof.
  split; apply finalizeClosing_without_effect; try reflexivity.
  - intros c [<-|[]] _. now right.
  - intros c [<-|[]] _. now left.
Defined.

Lemma add_refused_on_finalized db caller cid aid amt pm notes id :
  caller_is_super_admin db caller = false ->
  (forall c, In c (cash_register_closings db) ->
             closing_row_id c = cid -> is_finalized c = true) ->
  AddTransactionModal.handleSubmit db caller cid aid amt pm notes id
  = (db, Failed (Storage
                   (if numeric_10_2 amt
                    then rls_violation "cash_register_transactions"
                    else numeric_field_overflow))).
Proof.
  intros Hadmin Hfin. unfold AddTransactionModal.handleSubmit, insert_transaction.
  rewrite transactions_insert_check. cbn [closing_id amount].
  rewrite (no_open_closing_to_own _ _ _ Hfin), Hadmin.
  now destruct (numeric_10_2 amt).
Qed.

Lemma delete_idle_on_finalized db caller closing txs confirmed tid :
  caller_is_super_admin db caller = false ->
  (forall c, In c (cash_register_closings db) ->
             closing_row_id c = closing_row_id closing -> is_finalized c = true) ->
  TransactionsModal.deleteTransaction db caller closing txs confirmed tid
  = (db, Done).
Proof.
  intros Hadmin Hfin. unfold TransactionsModal.deleteTransaction.
  destruct (negb confirmed); [reflexivity|].
  rewrite delete_transactions_noop.
  unfold TransactionsModal.updateTotal, update_closings.
  rewrite update_rows_untouched.
  - simpl. now rewrite set_closings_same.
  - intros c Hc. rewrite closings_update_using, Hadmin, orb_false_r.
    destruct (String.eqb (closing_row_id c) (closing_row_id closing)) eqn:E;
      [|reflexivity].
    apply String.eqb_eq in E. rewrite (Hfin c Hc E). apply andb_false_r.
Qed.

(** Once the owner, not a super admin, has finalized their closing, their
    own add is refused (by the insert policy when the amount fits the
    column, as a numeric overflow when it does not) and their own delete
    does nothing: both leave the store exactly as the finalize left it. *)
Theorem finalize_then_frozen_for_owner db uid closing now_ :
  caller_is_super_admin db (Some uid) = false ->
  (forall c, In c (cash_register_closings db) ->
     closing_row_id c = closing_row_id closing ->
     closing_professional_id c = uid) ->
  let db1 := fst (TransactionsModal.finalizeClosing db (Some uid) closing true now_) in
  (forall c, In c (cash_register_closings db1) ->
     closing_row_id c = closing_row_id closing -> is_finalized c = true)
  /\ (forall aid amt pm notes id,
        AddTransactionModal.handleSubmit db1 (Some uid) (closing_row_id closing)
          aid amt pm notes id
        = (db1, Failed (Storage
                          (if numeric_10_2 amt
                           then rls_violation "cash_register_transactions"
                           else numeric_field_overflow))))
  /\ (forall txs confirmed tid,
        TransactionsModal.deleteTransaction db1 (Some uid) closing txs confirmed tid
        = (db1, Done)).
Proof.
  intros Hadmin Hown db1.
  assert (forall c, In c (cash_register_closings db1) ->
            closing_row_id c = closing_row_id closing -> is_finalized c = true)
    as Hfin.
  { subst db1. rewrite finalizeClosing_shape. cbn [fst].
    change (cash_register_closings (set_closings db ?l)) with l.
    intros c Hc Hid. apply in_map_iff in Hc as (c0 & <- & Hc0).
    unfold closing_hit in *. rewrite closings_update_using, Hadmin, orb_false_r in *.
    destruct (String.eqb (closing_row_id c0) (closing_row_id closing)) eqn:E.
    - apply String.eqb_eq in E. cbn [is_uid andb] in *.
      rewrite (Hown c0 Hc0 E), String.eqb_refl in *. cbn [andb] in *.
      destruct (is_finalized c0) eqn:F; [exact F|reflexivity].
    - cbn [andb] in Hid. apply String.eqb_neq in E. contradiction. }
  assert (caller_is_super_admin db1 (Some uid) = false) as Hadmin1.
  { subst db1. now rewrite finalizeClosing_shape. }
  split; [exact Hfin|]. split.
  - intros. now apply add_refused_on_finalized.
  - intros. now apply delete_idle_on_finalized.
Qed.

Lemma finalize_then_frozen_for_owner_witness :
  AddTransactionModal.handleSubmit
    (fst (TransactionsModal.finalizeClosing Sample.two_sales (Some "u-ana")
            (Sample.closing_of_ana 3000 false) true "2024-01-10T18:00:00Z"))
    (Some "u-ana") "c-1" "" 500 "PIX" "" "t-3"
  = (Sample.closed, Failed (Storage (rls_violation "cash_register_transactions"))).
Proof.
  assert (forall c, In c (cash_register_closings Sample.two_sales) ->
            closing_row_id c = "c-1" -> closing_professional_id c = "u-ana") as Hown.
  { intros c [<-|[]] _. reflexivity. }
  destruct (finalize_then_frozen_for_owner Sample.two_sales "u-ana"
              (Sample.closing_of_ana 3000 false) "2024-01-10T18:00:00Z"
              eq_refl Hown) as (_ & Hadd & _).
  exact (Hadd "" 500 "PIX" "" "t-3").
Defined.

(** After a closing was opened for the day, opening one again for the same
    professional and day is refused with the "already exists" message and
    leaves the store as it was, in a store with one closing per professional
    and day. *)
Theorem createClosing_twice db uid today id db' :
  unique_days db ->
  CashRegister.createClosing db (Some uid) today id = (db', Done) ->
  forall id2,
    CashRegister.createClosing db' (Some uid) today id2
    = (db', Failed ClosingAlreadyExists).
Proof.
  intros Huniq Hfirst id2.
  assert (unique_days db') as Huniq'.
  { pose proof (createClosing_closings db (Some uid) today id) as Hch.
    rewrite Hfirst in Hch. exact (closings_change_unique _ _ Hch Huniq). }
  assert (day_taken db' uid today = true) as Htaken.
  { revert Hfirst. unfold CashRegister.createClosing.
    destruct (maybeSingle _); [discriminate|].
    on_insert insert_closing db1 E; [|discriminate].
    intros H; inversion H; subst db'; clear H.
    destruct (insert_closing_inv _ _ _ _ E) as [-> _].
    apply existsb_exists. eexists. split.
    - cbn [cash_register_closings set_closings]. apply in_or_app. right. now left.
    - unfold same_day. cbn. now rewrite !String.eqb_refl. }
  unfold CashRegister.createClosing. rewrite createClosing_precheck.
  destruct (filter_unique_day uid today _ Huniq' Htaken) as [c ->].
  reflexivity.
Qed.

Lemma createClosing_twice_witness :
  CashRegister.createClosing
    (fst (CashRegister.createClosing (Sample.clinic [] [] []) (Some "u-ana")
            "2024-01-10" "c-1"))
    (Some "u-ana") "2024-01-10" "c-2"
  = (fst (CashRegister.createClosing (Sample.clinic [] [] []) (Some "u-ana")
            "2024-01-10" "c-1"),
     Failed ClosingAlreadyExists).
Proof.
  apply (createClosing_twice (Sample.clinic [] [] []) "u-ana" "2024-01-10" "c-1").
  - constructor.
  - reflexivity.
Defined.

End ClosingSequences.

(** ** The Users page under the profile policies *)

Section UsersPageFacts.

(** The one UPDATE policy on profiles: one's own row. *)
Lemma profiles_update_using db caller p :
  using_ok profiles_policies UPDATE db caller p = is_uid caller (profile_id p).
Proof. destruct caller; cbn; rewrite ?orb_false_r; reflexivity. Qed.

Lemma profiles_update_check db caller p :
  with_check_ok profiles_policies UPDATE db caller p = is_uid caller (profile_id p).
Proof. destruct caller; cbn; rewrite ?orb_false_r; reflexivity. Qed.

Lemma set_profiles_same db : set_profiles db (profiles db) = db.
Proof. destruct db; reflexivity. Qed.

Lemma update_profiles_of_another db caller userId set valid :
  is_uid caller userId = false ->
  update_profiles db caller (fun p => String.eqb (profile_id p) userId) set valid
  = Ok db.
Proof.
  intros Hother. unfold update_profiles. rewrite update_rows_untouched.
  - simpl. now rewrite set_profiles_same.
  - intros p _. rewrite profiles_update_using.
    destruct (String.eqb (profile_id p) userId) eqn:E; [|reflexivity].
    apply String.eqb_eq in E. now rewrite E, Hother.
Qed.

(** No caller, a super admin included, changes another user's profile from
    the Users page: toggling the status of, or saving an edit to, a profile
    that is not the caller's own leaves the store as it was and reports
    success. *)
Theorem users_page_cannot_change_another_profile db caller :
  (forall userId currentStatus,
      is_uid caller userId = false ->
      UsersPage.handleToggleStatus db caller userId currentStatus = (db, Done))
  /\ (forall user_ fullName email_ role_ isActive,
        is_uid caller (profile_id user_) = false ->
        EditUserModal.handleSubmit db caller user_ fullName email_ role_ isActive
        = (db, Done)).
Proof.
  split.
  - intros userId cs Hother. unfold UsersPage.handleToggleStatus.
    now rewrite update_profiles_of_another.
  - intros user_ fullName email_ role_ isActive Hother.
    unfold EditUserModal.handleSubmit.
    now rewrite update_profiles_of_another.
Qed.

(** The super admin deactivates Ana, then makes Bia a super admin. *)
Lemma users_page_cannot_change_another_profile_witness :
  UsersPage.handleToggleStatus (Sample.clinic [] [] []) (Some "u-adm") "u-ana" true
  = (Sample.clinic [] [] [], Done)
  /\ EditUserModal.handleSubmit (Sample.clinic [] [] []) (Some "u-adm") Sample.bia
       "Bia" "bia@clinic" super_admin true
     = (Sample.clinic [] [] [], Done).
Proof.
  destruct (users_page_cannot_change_another_profile
              (Sample.clinic [] [] []) (Some "u-adm")) as [Htoggle Hedit].
  split; [now apply Htoggle|now apply Hedit].
Defined.

(** A user's edit of their own profile is stored as submitted, the role
    included, whatever role they hold, provided no other profile holds the
    submitted e-mail address. *)
Theorem edit_own_profile_stores_submitted_role
    db uid user_ fullName email_ role_ isActive n p :
  nth_error (profiles db) n = Some p ->
  profile_id p = uid ->
  profile_id user_ = uid ->
  (forall q, In q (profiles db) -> email q = email_ -> profile_id q = uid) ->
  let r := EditUserModal.handleSubmit db (Some uid) user_ fullName email_ role_
             isActive in
  snd r = Done
  /\ nth_error (profiles (fst r)) n
     = Some {| profile_id := uid; email := email_; full_name := fullName;
               role := role_; is_active := isActive |}.
Proof.
  intros Hn Hp Huser Hmail. cbv zeta.
  unfold EditUserModal.handleSubmit, update_profiles.
  rewrite update_rows_succeeds.
  - cbn [bind fst snd]. split; [reflexivity|].
    change (profiles (set_profiles db ?l)) with l.
    rewrite nth_error_map, Hn. cbn [option_map].
    rewrite profiles_update_using, Huser, Hp. cbn [is_uid].
    rewrite String.eqb_refl. cbn [andb].
    unfold EditUserModal.set_fields. now rewrite Hp.
  - intros q Hq Hhit. apply andb_prop in Hhit as [Hid _].
    apply String.eqb_eq in Hid. rewrite Huser in Hid. split.
    + rewrite profiles_update_check. cbn [EditUserModal.set_fields profile_id is_uid].
      rewrite Hid. apply String.eqb_refl.
    + unfold EditUserModal.email_free_for, require.
      cbn [EditUserModal.set_fields profile_id email].
      rewrite existsb_none; [reflexivity|].
      intros q' Hq'. destruct (String.eqb (email q') email_) eqn:E; [|reflexivity].
      apply String.eqb_eq in E. rewrite (Hmail q' Hq' E), Hid.
      now rewrite String.eqb_refl.
Qed.

(** Ana, a user, saves her own profile with role super_admin. *)
Lemma edit_own_profile_stores_submitted_role_witness :
  nth_error
    (profiles
       (fst (EditUserModal.handleSubmit (Sample.clinic [] [] []) (Some "u-ana")
               Sample.ana "Ana" "ana@clinic" super_admin true)))
    1
  = Some {| profile_id := "u-ana"; email := "ana@clinic"; full_name := "Ana";
            role := super_admin; is_active := true |}.
Proof.
  assert (forall q, In q (profiles (Sample.clinic [] [] [])) ->
            email q = "ana@clinic" -> profile_id q = "u-ana") as Hmail.
  { intros q [<-|[<-|[<-|[]]]] E; try discriminate E. reflexivity. }
  destruct (edit_own_profile_stores_submitted_role (Sample.clinic [] [] [])
              "u-ana" Sample.ana "Ana" "ana@clinic" super_admin true 1%nat
              Sample.ana eq_refl eq_refl eq_refl Hmail) as [_ H].
  exact H.
Defined.

(** The Users page creates a profile with the role chosen in the form for
    whatever caller, when the id and the e-mail address are new; when either
    is already held by a profile the creation fails with a uniqueness error
    and the store is left as it was. *)
Theorem create_user_depends_on_keys_only db caller resp uid fullName email_ role_ :
  AuthProvider.signUpError resp = false ->
  AuthProvider.auth_user resp = Some uid ->
  (has_profile db uid = false -> has_email db email_ = false ->
   CreateUserModal.handleSubmit db caller resp fullName email_ role_
   = (set_profiles db
        (profiles db
         ++ [ {| profile_id := uid; email := email_; full_name := fullName;
                 role := role_; is_active := true |} ]),
      Done))
  /\ (has_profile db uid = true \/ has_email db email_ = true ->
      exists name,
        CreateUserModal.handleSubmit db caller resp fullName email_ role_
        = (db, Failed (Storage (unique_violation name)))).
Proof.
  intros Herr Huser. unfold CreateUserModal.handleSubmit, insert_profile.
  rewrite Herr, Huser. cbn [profile_id email].
  assert (forall c p, with_check_ok profiles_policies INSERT db c p = true) as Hpol
    by (intros [u|] p; reflexivity).
  rewrite Hpol. cbn [bind require].
  split.
  - intros -> ->. reflexivity.
  - intros [-> | Hmail].
    + now eexists.
    + destruct (has_profile db uid); [now eexists|]. rewrite Hmail. now eexists.
Qed.

Lemma create_user_depends_on_keys_only_witness :
  (exists name,
     CreateUserModal.handleSubmit (Sample.clinic [] [] []) (Some "u-bia")
       (Sample.created "u-new" false) "New" "ana@clinic" super_admin
     = (Sample.clinic [] [] [], Failed (Storage (unique_violation name))))
  /\ snd (CreateUserModal.handleSubmit (Sample.clinic [] [] []) (Some "u-bia")
            (Sample.created "u-new" false) "New" "new@clinic" super_admin)
     = Done.
Proof.
  destruct (create_user_depends_on_keys_only (Sample.clinic [] [] []) (Some "u-bia")
              (Sample.created "u-new" false) "u-new" "New" "ana@clinic" super_admin
              eq_refl eq_refl) as [_ Hdup].
  destruct (create_user_depends_on_keys_only (Sample.clinic [] [] []) (Some "u-bia")
              (Sample.created "u-new" false) "u-new" "New" "new@clinic" super_admin
              eq_refl eq_refl) as [Hnew _].
  split.
  - apply Hdup. now right.
  - now rewrite Hnew.
Defined.

End UsersPageFacts.

(** ** The lists of the Agenda and of the cash-register page *)

Section Lists.




Lemma dayAppointments_push d a acc d' :
  Agenda.dayAppointments (Agenda.push_group d a acc) d'
  = if String.eqb d d'
    then (Agenda.dayAppointments acc d' ++ [a])%list
    else Agenda.dayAppointments acc d'.
Proof.
  unfold Agenda.dayAppointments.
  induction acc as [|[k v] rest IH]; cbn [Agenda.push_group find fst].
  - now destruct (String.eqb d d').
  - destruct (String.eqb k d) eqn:Ekd; cbn [find fst].
    + apply String.eqb_eq in Ekd. subst k. now destruct (String.eqb d d').
    + destruct (String.eqb k d') eqn:Ekd'; [|exact IH].
      apply String.eqb_eq in Ekd'. subst k.
      rewrite String.eqb_sym in Ekd. now rewrite Ekd.
Qed.

(** The week view shows under each day exactly the loaded appointments of
    that date, in the order they were loaded. *)
Theorem groupedAppointments_by_date l d :
  Agenda.dayAppointments (Agenda.groupedAppointments l) d
  = filter (fun a => String.eqb (appointment_date a) d) l.
Proof.
  unfold Agenda.groupedAppointments.
  assert (forall acc,
            Agenda.dayAppointments
              (fold_left (fun acc apt =>
                            Agenda.push_group (appointment_date apt) apt acc) l acc)
              d
            = (Agenda.dayAppointments acc d
               ++ filter (fun a => String.eqb (appointment_date a) d) l)%list) as H.
  { induction l as [|a l IH]; intros acc; cbn [fold_left filter].
    - now rewrite app_nil_r.
    - rewrite IH, dayAppointments_push.
      destruct (String.eqb (appointment_date a) d); [|reflexivity].
      now rewrite <- app_assoc. }
  now rewrite H.
Qed.

(** The cash-register page lists closings from the latest date to the
    earliest. Every closing listed is stored and belongs to the caller
    unless the caller is a super admin; a caller without the super-admin
    flag and with no date filter is listed exactly their own closings. *)
Theorem loadClosings_lists_visible_rows db user_ isSuperAdmin sel dateFilter :
  let shown := CashRegisterPage.loadClosings db user_ isSuperAdmin sel dateFilter in
  Sorted (fun a b => String.leb (closing_date b) (closing_date a) = true) shown
  /\ (forall c, In c shown ->
        In c (cash_register_closings db)
        /\ is_uid user_ (closing_professional_id c) || caller_is_super_admin db user_
           = true)
  /\ (forall uid, user_ = Some uid -> isSuperAdmin = false -> dateFilter = "" ->
        Permutation shown
          (filter (fun c => String.eqb (closing_professional_id c) uid)
                  (cash_register_closings db))).
Proof.
  cbv zeta. unfold CashRegisterPage.loadClosings. split; [|split].
  - apply SortByDateDesc.Sorted_sort.
  - intros c Hc.
    apply (Permutation_in _ (Permutation_sym (SortByDateDesc.Permuted_sort _))) in Hc.
    unfold select_from in Hc. apply filter_In in Hc as [Hc Hp].
    apply andb_prop in Hp as [_ Hsee].
    rewrite closings_select_using in Hsee. auto.
  - intros uid -> -> ->. eapply Permutation_trans;
      [apply Permutation_sym, SortByDateDesc.Permuted_sort|].
    unfold select_from. erewrite filter_ext; [apply Permutation_refl|].
    intros c. rewrite closings_select_using. cbn.
    destruct (String.eqb (closing_professional_id c) uid); reflexivity.
Qed.

Lemma loadClosings_lists_visible_rows_witness :
  Permutation
    (CashRegisterPage.loadClosings Sample.two_sales (Some "u-ana") false "" "")
    [Sample.closing_of_ana 3000 false]
  /\ Permutation
       (CashRegisterPage.loadClosings Sample.two_sales (Some "u-bia") false "" "")
       [].
Proof.
  split.
  - destruct (loadClosings_lists_visible_rows Sample.two_sales (Some "u-ana")
                false "" "") as (_ & _ & H).
    exact (H "u-ana" eq_refl eq_refl eq_refl).
  - destruct (loadClosings_lists_visible_rows Sample.two_sales (Some "u-bia")
                false "" "") as (_ & _ & H).
    exact (H "u-bia" eq_refl eq_refl eq_refl).
Defined.

End Lists.
